(** * ITSM Ticket Orchestrator: the event-rendering loop of [app.py]

    A shallow embedding of the run-button handler of the Streamlit front end:
    the blank-input guard, the loop that projects the agent's streamed events
    onto a list of steps, a text buffer and a progress bar, and the [except]
    clause around it.

    Python [str] values are Rocq [string]s holding the UTF-8 encoding of the
    text.  Substring and prefix tests on UTF-8 bytes agree with the tests on
    code points, since UTF-8 is self-synchronising.  The widgets the handler
    draws are recorded as a log of Streamlit calls, in the order they are
    made. *)

From Stdlib Require Import Ascii QArith Qminmax.
From stdpp Require Import gmap strings list pretty.


(** ** Python strings *)

Module Py.

(** [s.startswith(p)] *)
Fixpoint startswith (s p : string) : bool :=
  match p, s with
  | EmptyString, _ => true
  | String a p', String b s' => if decide (a = b) then startswith s' p' else false
  | String _ _, EmptyString => false
  end.

(** [sub in s] for two strings *)
Fixpoint str_in (sub s : string) : bool :=
  startswith s sub ||
  match s with
  | EmptyString => false
  | String _ s' => str_in sub s'
  end.

(** The values a chunk's [content] attribute can hold: [None], a [str], or
    some other object, of which the loop only uses the truth value and the
    result of [str()]. *)
Inductive value :=
| None_
| Str (s : string)
| Obj (truth : bool) (repr : string).

(** [bool(s)] for a string *)
Definition str_truthy (s : string) : bool :=
  match s with EmptyString => false | String _ _ => true end.

(** [bool(v)] *)
Definition truthy (v : value) : bool :=
  match v with
  | None_ => false
  | Str s => str_truthy s
  | Obj t _ => t
  end.

(** [str(v)] *)
Definition str (v : value) : string :=
  match v with
  | None_ => "None"
  | Str s => s
  | Obj _ r => r
  end.

(** [str(v)] for an optional string, as an f-string formats it *)
Definition str_opt (v : option string) : string :=
  match v with
  | None => "None"
  | Some s => s
  end.

(** [bool(v)] for a variable holding [None] or a string *)
Definition opt_truthy (v : option string) : bool :=
  match v with
  | None => false
  | Some s => str_truthy s
  end.

(** [a or b] where [a] holds [None] or a string: [a] when it is truthy,
    [b] otherwise. *)
Definition or_ (a : option string) (b : option string) : option string :=
  if opt_truthy a then a else b.

End Py.

(** ** Helper function *)

Definition agent_map : gmap string string :=
  list_to_map
    [ ("transfer_task_to_task_analyzer", "📊 Task Analyzer");
      ("transfer_task_to_incident_analyzer", "🔍 Incident Analyzer");
      ("transfer_task_to_ticket_creation", "🎫 Ticket Creation");
      ("transfer_task_to_root_cause_analysis", "🔬 Root Cause Analysis");
      ("transfer_task_to_resolution_discovery", "💡 Resolution Discovery") ].

(** [agent_map.get(function_name, "🤖 Agent")] *)
Definition get_agent_name_from_function (function_name : string) : string :=
  default "🤖 Agent" (agent_map !! function_name).

(** ** Events *)

(** The tag of a streamed chunk.  The loop compares it with five values of
    the agent library's [RunEvent] enumeration; every other tag is
    [other_event]. *)
Inductive RunEvent :=
| run_started
| tool_call_started
| tool_call_completed
| run_response
| run_completed
| other_event (tag : string).

Module RunResponse.
(** The attributes of a [RunResponse] the loop reads.  [tools] is [None]
    or a list of dictionaries; the loop reads the ["function_name"] entry
    of the last one. *)
Record t := mk {
  event : RunEvent;
  content : Py.value;
  tools : option (list (gmap string string));
  run_id : option string
}.
End RunResponse.

(** What the response stream yields: a [RunResponse], or an object of some
    other class. *)
Inductive chunk :=
| is_RunResponse (r : RunResponse.t)
| not_RunResponse.

(** ** Steps and the Streamlit calls *)

Inductive step_type := info | delegation | success.

(** One dictionary of [execution_steps], with its four keys. *)
Record step := mk_step {
  icon : string;
  title : string;
  content : string;
  type : step_type
}.

(** An exception object: whether it is an instance of [Exception], which is
    what [except Exception] tests ([KeyboardInterrupt], [SystemExit],
    [GeneratorExit] and [asyncio.CancelledError] are instances of
    [BaseException] only), what [str(e)] gives, and the traceback
    [st.exception] prints with it. *)
Record BaseException := mk_exception {
  is_Exception : bool;
  message : string;
  traceback : string
}.

Inductive widget :=
| st_info (body : string)
| st_warning (body : string)
| st_success (body : string).

(** One [st.expander] of the live rendering, with the widget inside it. *)
Record expander := mk_expander {
  label : string;
  expanded : bool;
  inner : widget
}.

(** The calls the handler makes on Streamlit and on the agent, as a log. *)
Inductive call :=
| warning (body : string)
| stop
| progress_create (value : Q)
| markdown (body : string)
| Sister_run (user_input : string)
| progress_bar_progress (value : Q)
| status_text_info (body : string)
| status_text_success (body : string)
| steps_placeholder_container (widgets : list expander)
| status_container_empty
| download_button (label data file_name mime : string)
| final_info (body : string)
| error (body : string)
| exception (e : BaseException).

(** ** The state of one run *)

Record run_state := mk_state {
  execution_steps : list step;
  step_count : nat;
  current_agent : option string;
  full_content : string;
  run_id : option string
}.

Definition initial_state : run_state :=
  {| execution_steps := [];
     step_count := 0;
     current_agent := None;
     full_content := EmptyString;
     run_id := None |}.

(** ** Live rendering of the steps *)

(** The expander drawn for the step numbered [idx]. *)
Definition render_step (idx : nat) (s : step) : expander :=
  {| label := icon s +:+ " Step " +:+ pretty idx +:+ ": " +:+ title s;
     expanded :=
       match type s with
       | delegation | success => true
       | info => false
       end;
     inner :=
       match type s with
       | info => st_info (content s)
       | delegation => st_warning (content s)
       | success => st_success (content s)
       end |}.

(** [for idx, step in enumerate(execution_steps, 1)] *)
Definition render (steps : list step) : call :=
  steps_placeholder_container (imap (λ i s, render_step (S i) s) steps).

(** ** The body of the loop *)

Definition delegation_prefix : string := "transfer_task_to_".

Definition agent_keys : list string :=
  [ "task_analyzer"; "incident_analyzer"; "ticket_creation";
    "root_cause_analysis"; "resolution_discovery" ].

(** The [for key in [...]] scan of a completion's text: the label of the
    first key the text contains. *)
Fixpoint scan_keys (keys : list string) (content_str : string) : option string :=
  match keys with
  | [] => None
  | key :: keys' =>
      if Py.str_in key content_str
      then Some (get_agent_name_from_function (delegation_prefix +:+ key))
      else scan_keys keys' content_str
  end.

Definition detect_agent (content_str : string) : option string :=
  if Py.str_in delegation_prefix content_str
  then scan_keys agent_keys content_str
  else None.

(** [step_count / 10] *)
Definition tenth (step_count : nat) : Q := Z.of_nat step_count # 10.

(** One iteration of [for response_chunk in response_stream]: the new state
    and the calls made, in order.  An iteration that ends in [continue] makes
    no call, since the rendering is at the end of the body. *)
Definition process_chunk (st : run_state) (response_chunk : chunk)
    : run_state * list call :=
  match response_chunk with
  | not_RunResponse => (st, [])
  | is_RunResponse r =>
      let event := RunResponse.event r in
      let content := RunResponse.content r in
      let st :=
        {| execution_steps := execution_steps st;
           step_count := step_count st;
           current_agent := current_agent st;
           full_content := full_content st;
           run_id := RunResponse.run_id r |} in
      match event with
      | run_started =>
          let st' :=
            {| execution_steps :=
                 execution_steps st ++
                 [ {| icon := "🚀";
                      title := "Orchestrator Started";
                      content := "Analyzing incident and determining workflow";
                      type := info |} ];
               step_count := step_count st + 1;
               current_agent := current_agent st;
               full_content := full_content st;
               run_id := run_id st |} in
          (st',
           [ progress_bar_progress (1 # 10);
             status_text_info "🚀 Orchestrator analyzing request";
             render (execution_steps st') ])
      | tool_call_started =>
          match RunResponse.tools r with
          | None => (st, [])
          | Some tools =>
              match last tools with
              | None => (st, [])
              | Some tool_info =>
                  let function_name := tool_info !! "function_name" in
                  if negb (Py.opt_truthy function_name) then (st, [])
                  else
                    let function_name := Py.str_opt function_name in
                    if negb (Py.startswith function_name delegation_prefix)
                    then (st, [])
                    else
                      let agent := get_agent_name_from_function function_name in
                      let count := step_count st + 1 in
                      let st' :=
                        {| execution_steps :=
                             execution_steps st ++
                             [ {| icon := "🔄";
                                  title := "Delegating to " +:+ agent;
                                  content := "Task transferred successfully";
                                  type := delegation |} ];
                           step_count := count;
                           current_agent := Some agent;
                           full_content := full_content st;
                           run_id := run_id st |} in
                      (st',
                       [ progress_bar_progress (Qmin (tenth count) (9 # 10));
                         status_text_info ("🔄 Delegating to " +:+ agent);
                         render (execution_steps st') ])
              end
          end
      | tool_call_completed =>
          if negb (Py.truthy content) then (st, [])
          else
            let content_str := Py.str content in
            let detected_agent := detect_agent content_str in
            let agent_name :=
              Py.str_opt
                (Py.or_ (Py.or_ detected_agent (current_agent st))
                        (Some "🤖 Agent")) in
            let count := step_count st + 1 in
            let st' :=
              {| execution_steps :=
                   execution_steps st ++
                   [ {| icon := "✅";
                        title := agent_name +:+ " - Completed";
                        content := content_str;
                        type := success |} ];
                 step_count := count;
                 current_agent := None;
                 full_content := full_content st;
                 run_id := run_id st |} in
            (st',
             [ progress_bar_progress (Qmin (tenth count) (95 # 100));
               render (execution_steps st') ])
      | run_response =>
          let st' :=
            match content with
            | Py.Str delta =>
                {| execution_steps := execution_steps st;
                   step_count := step_count st;
                   current_agent := current_agent st;
                   full_content := full_content st +:+ delta;
                   run_id := run_id st |}
            | _ => st
            end in
          (st', [ render (execution_steps st') ])
      | run_completed =>
          let st' :=
            {| execution_steps :=
                 execution_steps st ++
                 [ {| icon := "✨";
                      title := "Orchestration Completed";
                      content := "All agents finished successfully";
                      type := success |} ];
               step_count := step_count st;
               current_agent := current_agent st;
               full_content := full_content st;
               run_id := run_id st |} in
          (st',
           [ progress_bar_progress 1;
             status_text_success "✨ Workflow completed successfully";
             render (execution_steps st') ])
      | other_event _ => (st, [ render (execution_steps st) ])
      end
  end.

(** ** The stream and the loop *)

(** What pulling the next element of the response stream does: it yields a
    chunk, or the agent run behind the generator raises an exception.  The
    body of the loop raises none itself on the chunks modelled here: the
    attributes have the types it expects, and every value it passes to the
    progress bar lies between 0 and 1.  The end of the list is the end of the
    stream. *)
Inductive pull :=
| yields (response_chunk : chunk)
| raises (e : BaseException).

(** [for response_chunk in response_stream: ...] inside the [try]: the state
    when the loop is left, the calls made, and the exception that left it,
    if any. *)
Fixpoint run_loop (st : run_state) (response_stream : list pull)
    : run_state * list call * option BaseException :=
  match response_stream with
  | [] => (st, [], None)
  | raises e :: _ => (st, [], Some e)
  | yields response_chunk :: rest =>
      let '(st1, calls1) := process_chunk st response_chunk in
      let '(st2, calls2, raised) := run_loop st1 rest in
      (st2, calls1 ++ calls2, raised)
  end.

(** ** [str.strip()] *)

Module Strip.

Definition bytes (s : string) : list ascii := String.list_ascii_of_string s.
Definition of_bytes (l : list ascii) : string := String.string_of_list_ascii l.

(** The UTF-8 encodings of the characters [str.isspace] accepts, which are
    the ones [strip()] removes: U+0009 to U+000D, U+001C to U+0020, U+0085,
    U+00A0, U+1680, U+2000 to U+200A, U+2028, U+2029, U+202F, U+205F and
    U+3000. *)
Definition whitespace : list (list ascii) :=
  map (map Ascii.ascii_of_nat)
    ([ [9]; [10]; [11]; [12]; [13]; [28]; [29]; [30]; [31]; [32];
       [194; 133]; [194; 160]; [225; 154; 128] ]
     ++ map (λ b, [226; 128; b]) (seq 128 11)
     ++ [ [226; 128; 168]; [226; 128; 169]; [226; 128; 175];
          [226; 129; 159]; [227; 128; 128] ]).

(** What follows [w] in [l], when [l] starts with [w]. *)
Fixpoint after (w l : list ascii) : option (list ascii) :=
  match w, l with
  | [], _ => Some l
  | a :: w', b :: l' => if decide (a = b) then after w' l' else None
  | _ :: _, [] => None
  end.

(** [l] without its first character, when that is one of [codes]. *)
Fixpoint skip (codes : list (list ascii)) (l : list ascii) : option (list ascii) :=
  match codes with
  | [] => None
  | w :: codes' =>
      match after w l with
      | Some r => Some r
      | None => skip codes' l
      end
  end.

(** Skip leading characters of [codes], at most [n] of them. *)
Fixpoint skip_all (codes : list (list ascii)) (n : nat) (l : list ascii)
    : list ascii :=
  match n with
  | 0 => l
  | S n' =>
      match skip codes l with
      | Some r => skip_all codes n' r
      | None => l
      end
  end.

Definition lstrip_bytes (codes : list (list ascii)) (l : list ascii) : list ascii :=
  skip_all codes (length l) l.

Definition lstrip (s : string) : string :=
  of_bytes (lstrip_bytes whitespace (bytes s)).

(** The same scan from the right end: on the reversed text, with the
    reversed encodings. *)
Definition rstrip (s : string) : string :=
  of_bytes (reverse (lstrip_bytes (reverse <$> whitespace) (reverse (bytes s)))).

(** [s.strip()] *)
Definition strip (s : string) : string := rstrip (lstrip s).

(** A text made of whitespace characters only (the empty text included). *)
Definition blank (s : string) : Prop :=
  ∃ ws : list (list ascii), Forall (λ w, w ∈ whitespace) ws ∧ bytes s = concat ws.

End Strip.

(** ** The run button handler *)

Definition newline : string := String (Ascii.ascii_of_nat 10) EmptyString.

(** The f-string that joins the e-mail fields. *)
Definition user_input (email_from email_subject email_body : string) : string :=
  "reported by " +:+ email_from +:+ " Subject: " +:+ email_subject
  +:+ newline +:+ newline +:+ email_body.

(** The final report, drawn when the loop ends without an exception. *)
Definition final_report (st : run_state) : list call :=
  [ markdown "---"; markdown "## ✅ Final ITSM Report" ] ++
  if Py.str_truthy (full_content st)
  then [ markdown (full_content st);
         download_button "📥 Download Report" (full_content st)
           ("itsm_report_" +:+ Py.str_opt (run_id st) +:+ ".md")
           "text/markdown" ]
  else [ final_info "No final content generated" ].

(** The [try] statement of the handler, for a prompt and the stream
    [Sister.run] returns for it.  The stream is a generator: the agent does
    its work, and fails, while the loop pulls from it.  The clause
    [except Exception as e] catches the instances of [Exception]; any other
    exception leaves the handler, which makes no further call. *)
Definition try_block (prompt : string) (response_stream : list pull) : list call :=
  Sister_run prompt ::
  match run_loop initial_state response_stream with
  | (st, calls, None) =>
      calls ++ [ status_container_empty ] ++ final_report st
  | (_, calls, Some e) =>
      if is_Exception e
      then calls ++ [ status_container_empty;
                      error ("❌ Error: " +:+ message e);
                      exception e ]
      else calls
  end.

(** The block under [if st.button(...)], given what [Sister.run] streams for
    a prompt: every call it makes, in order.  [st.stop()] ends the script, so
    nothing follows it. *)
Definition run_button_handler (agent : string → list pull)
    (email_from email_subject email_body : string) : list call :=
  if negb (Py.str_truthy (Strip.strip email_subject))
     && negb (Py.str_truthy (Strip.strip email_body))
  then [ warning "⚠️ Please enter incident details"; stop ]
  else
    let prompt := user_input email_from email_subject email_body in
    [ progress_create 0; markdown "## 📋 Execution Steps" ] ++
    try_block prompt (agent prompt).

(** ** Notions the properties are stated with *)

(** The chunks the loop receives from a stream: those pulled before the
    first exception. *)
Fixpoint delivered (response_stream : list pull) : list chunk :=
  match response_stream with
  | yields response_chunk :: rest => response_chunk :: delivered rest
  | _ => []
  end.

Definition state_after (st : run_state) (response_stream : list pull) : run_state :=
  (run_loop st response_stream).1.1.

Definition calls_of (st : run_state) (response_stream : list pull) : list call :=
  (run_loop st response_stream).1.2.

(** The tag of a chunk, for the chunks that are [RunResponse] objects. *)
Definition chunk_event (c : chunk) : option RunEvent :=
  match c with
  | is_RunResponse r => Some (RunResponse.event r)
  | not_RunResponse => None
  end.

Definition is_run_completed (c : chunk) : bool :=
  match chunk_event c with
  | Some run_completed => true
  | _ => false
  end.

(** The function name a [tool_call_started] chunk is judged by, when it has
    one: the ["function_name"] entry of the last element of [tools]. *)
Definition inspected_name (r : RunResponse.t) : option string :=
  match RunResponse.tools r with
  | Some tools =>
      match last tools with
      | Some tool_info => tool_info !! "function_name"
      | None => None
      end
  | None => None
  end.

(** The filters of section 4.1 of the specification: the events that become
    a visible step when no [run_completed] is among them. *)
Definition passes_filter (c : chunk) : bool :=
  match c with
  | is_RunResponse r =>
      match RunResponse.event r with
      | run_started => true
      | tool_call_started =>
          match inspected_name r with
          | Some function_name => Py.startswith function_name delegation_prefix
          | None => false
          end
      | tool_call_completed => Py.truthy (RunResponse.content r)
      | _ => false
      end
  | not_RunResponse => false
  end.

(** The delta a chunk carries: the content of a [run_response] event, when
    it is a string. *)
Definition delta (c : chunk) : option string :=
  match c with
  | is_RunResponse r =>
      match RunResponse.event r, RunResponse.content r with
      | run_response, Py.Str d => Some d
      | _, _ => None
      end
  | not_RunResponse => None
  end.

(** [d1 + d2 + ... + dN] *)
Definition join (deltas : list string) : string :=
  foldr String.append EmptyString deltas.

(** The values the progress bar is set to, in order. *)
Definition progress_values (calls : list call) : list Q :=
  omap (λ c, match c with progress_bar_progress v => Some v | _ => None end) calls.

(** The prompts the agent is run with, in order. *)
Definition agent_runs (calls : list call) : list string :=
  omap (λ c, match c with Sister_run prompt => Some prompt | _ => None end) calls.

(** The renderings of the step list, in order. *)
Definition renderings (calls : list call) : list (list expander) :=
  omap (λ c, match c with steps_placeholder_container ws => Some ws | _ => None end)
       calls.

(** The function names of the five delegation targets. *)
Definition delegation_targets : list string :=
  (λ key, delegation_prefix +:+ key) <$> agent_keys.

(** A [tool_call_started] chunk whose [tools] list ends with [tool_info]. *)
Definition started (earlier : list (gmap string string))
    (tool_info : gmap string string) (content : Py.value)
    (run_id : option string) : chunk :=
  is_RunResponse
    {| RunResponse.event := tool_call_started;
       RunResponse.content := content;
       RunResponse.tools := Some (earlier ++ [tool_info]);
       RunResponse.run_id := run_id |}.

(** A [tool_call_completed] chunk. *)
Definition completed (content : Py.value)
    (tools : option (list (gmap string string))) (run_id : option string) : chunk :=
  is_RunResponse
    {| RunResponse.event := tool_call_completed;
       RunResponse.content := content;
       RunResponse.tools := tools;
       RunResponse.run_id := run_id |}.

(** The last-tool test of the [tool_call_started] branch, as the
    specification words it: the tool has a function name, and the name begins
    with the delegation prefix. *)
Definition delegates (tool_info : gmap string string) : bool :=
  match tool_info !! "function_name" with
  | Some function_name => Py.startswith function_name delegation_prefix
  | None => false
  end.

(** The keys of [agent_keys] a text contains, in the order of the scan. *)
Definition keys_in (content_str : string) : list string :=
  List.filter (λ key, Py.str_in key content_str) agent_keys.

(** The success step of a completion attributed to [agent_name]. *)
Definition completion_step (agent_name content_str : string) : step :=
  {| icon := "✅";
     title := agent_name +:+ " - Completed";
     content := content_str;
     type := success |}.

(** The reading of the specification's sentence on completions: one keyword
    in the text is enough to attribute the step to that keyword's agent. *)
Definition detection_by_keyword_alone : Prop :=
  ∀ st content tools run_id key,
    Py.truthy content = true →
    keys_in (Py.str content) = [key] →
    (process_chunk st (completed content tools run_id)).1.(execution_steps)
    = execution_steps st ++
      [ completion_step (get_agent_name_from_function (delegation_prefix +:+ key))
                        (Py.str content) ].


(** The state with [run_id] replaced, which is all an ignored chunk does. *)
Definition with_run_id (st : run_state) (id : option string) : run_state :=
  {| execution_steps := execution_steps st;
     step_count := step_count st;
     current_agent := current_agent st;
     full_content := full_content st;
     run_id := id |}.

(** No encoding is empty, and none is a proper prefix of another one. *)
Definition prefix_code (codes : list (list ascii)) : Prop :=
  Forall (λ w, w ≠ [] ∧ Forall (λ w', w' `prefix_of` w → w' = w) codes) codes.

(** ** Notions the further properties are stated with *)

(** The label the scan gives for a key. *)
Definition label_of_key (key : string) : string :=
  get_agent_name_from_function (delegation_prefix +:+ key).

(** The labels [get_agent_name_from_function] can return. *)
Definition agent_labels : list string :=
  [ "🤖 Agent"; "📊 Task Analyzer"; "🔍 Incident Analyzer"; "🎫 Ticket Creation";
    "🔬 Root Cause Analysis"; "💡 Resolution Discovery" ].

(** The [run_id] attribute of a chunk that has one. *)
Definition chunk_run_id (c : chunk) : option (option string) :=
  match c with
  | is_RunResponse r => Some (RunResponse.run_id r)
  | not_RunResponse => None
  end.

Definition is_response (c : chunk) : bool :=
  match c with
  | is_RunResponse _ => true
  | not_RunResponse => false
  end.

(** The step of a delegation to the agent labelled [agent]. *)
Definition delegation_step (agent : string) : step :=
  {| icon := "🔄";
     title := "Delegating to " +:+ agent;
     content := "Task transferred successfully";
     type := delegation |}.

(** The step of the [run_started] branch. *)
Definition run_started_step : step :=
  {| icon := "🚀";
     title := "Orchestrator Started";
     content := "Analyzing incident and determining workflow";
     type := info |}.

(** The step of the [run_completed] branch. *)
Definition run_completed_step : step :=
  {| icon := "✨";
     title := "Orchestration Completed";
     content := "All agents finished successfully";
     type := success |}.

(** The four kinds of step the loop appends, with the agent labels they can
    carry. *)
Definition step_shape (s : step) : Prop :=
  s = run_started_step
  ∨ (∃ agent, agent ∈ agent_labels ∧ s = delegation_step agent)
  ∨ (∃ agent text, agent ∈ agent_labels ∧ s = completion_step agent text)
  ∨ s = run_completed_step.

(** The chunks that set or clear the remembered agent: the tool events that
    pass their filter. *)
Definition touches_agent (c : chunk) : bool :=
  match chunk_event c with
  | Some tool_call_started | Some tool_call_completed => passes_filter c
  | _ => false
  end.

(** The chunks that add no step: those that pass no filter and are not
    [run_completed]. *)
Definition silent (c : chunk) : bool :=
  negb (passes_filter c) && negb (is_run_completed c).

Definition is_status_container_empty (c : call) : bool :=
  match c with
  | status_container_empty => true
  | _ => false
  end.

(** The first exception a stream raises, if it raises one. *)
Fixpoint raised (response_stream : list pull) : option BaseException :=
  match response_stream with
  | [] => None
  | raises e :: _ => Some e
  | yields _ :: rest => raised rest
  end.

(** A value of the progress bar between 10% and 95%. *)
Definition partial (v : Q) : Prop := ((1 # 10) <= v)%Q ∧ (v <= (95 # 100))%Q.

(** * Facts about the embedding *)

(** ** Strings *)

Lemma append_empty_r s : s +:+ EmptyString = s.
Proof. induction s as [|a s IH]; [done | exact (f_equal (String a) IH)]. Qed.

Lemma append_assoc s1 s2 s3 : (s1 +:+ s2) +:+ s3 = s1 +:+ (s2 +:+ s3).
Proof. induction s1 as [|a s1 IH]; [done | exact (f_equal (String a) IH)]. Qed.

(** ** [strip()] and blank texts *)

Module StripFacts.
Import Strip.

Lemma after_Some w l r : after w l = Some r ↔ l = w ++ r.
Proof.
  revert l. induction w as [|a w IH]; intros [|b l]; simpl.
  - split; congruence.
  - split; congruence.
  - split; [done | discriminate].
  - destruct (decide (a = b)) as [->|Hne].
    + rewrite IH. split; [intros ->; done | intros [=]; done].
    + split; [done | intros [=]; done].
Qed.

Lemma skip_Some codes l r :
  skip codes l = Some r → ∃ w, w ∈ codes ∧ l = w ++ r.
Proof.
  induction codes as [|w codes IH]; simpl; [done|].
  destruct (after w l) as [r'|] eqn:Hw.
  - intros [= ->]. apply after_Some in Hw. exists w. split; [left | done].
  - intros (w' & ? & ?)%IH. exists w'. split; [by right | done].
Qed.

(** In a prefix code, the character skipped is the one the text starts
    with. *)
Lemma skip_code codes w r :
  prefix_code codes → w ∈ codes → skip codes (w ++ r) = Some r.
Proof.
  intros Hcode Hw.
  assert (∀ w', w' ∈ codes → ∀ r', after w' (w ++ r) = Some r' → r' = r)
    as Huniq.
  { intros w' Hw' r' Hr'%after_Some.
    assert (w' = w) as ->; [|by apply app_inv_head in Hr'].
    unfold prefix_code in Hcode. rewrite Forall_forall in Hcode.
    destruct (prefix_weak_total w' w (w ++ r)) as [Hp|Hp].
    - exists r'. done.
    - by exists r.
    - destruct (Hcode w Hw) as [_ Hall]. rewrite Forall_forall in Hall. by apply Hall.
    - destruct (Hcode w' Hw') as [_ Hall]. rewrite Forall_forall in Hall.
      symmetry. by apply Hall. }
  clear Hcode. induction codes as [|c codes IH]; [by apply elem_of_nil in Hw|].
  simpl. destruct (after c (w ++ r)) as [r'|] eqn:Hc.
  - f_equal. apply (Huniq c); [left | done].
  - apply elem_of_cons in Hw as [Heq|Hw].
    + subst c. assert (after w (w ++ r) = Some r) by by apply after_Some. congruence.
    + apply IH; [done|]. intros w' Hw'. apply Huniq. by right.
Qed.

Lemma skip_all_sound codes n l :
  ∃ ws, Forall (λ w, w ∈ codes) ws ∧ l = concat ws ++ skip_all codes n l.
Proof.
  revert l. induction n as [|n IH]; intros l; simpl.
  - by exists [].
  - destruct (skip codes l) as [r|] eqn:Hskip.
    + apply skip_Some in Hskip as (w & Hw & ->).
      destruct (IH r) as (ws & Hws & Hr).
      exists (w :: ws). split; [by constructor|].
      simpl. rewrite <- app_assoc. by f_equal.
    + by exists [].
Qed.

Lemma skip_all_complete codes n ws :
  prefix_code codes → Forall (λ w, w ∈ codes) ws →
  length (concat ws) ≤ n → skip_all codes n (concat ws) = [].
Proof.
  intros Hcode Hws. revert n.
  induction Hws as [|w ws Hw Hws IH]; intros n Hn; simpl in *.
  - destruct (skip_all_sound codes n []) as (ws & _ & Hnil).
    symmetry in Hnil. by apply app_eq_nil in Hnil as [_ ?].
  - assert (w ≠ []) as Hne.
    { unfold prefix_code in Hcode. rewrite Forall_forall in Hcode.
      by destruct (Hcode w Hw). }
    destruct n as [|n].
    + rewrite length_app in Hn. destruct w; [done | simpl in Hn; lia].
    + simpl. rewrite skip_code by done. apply IH.
      rewrite length_app in Hn. destruct w; [done | simpl in Hn; lia].
Qed.

Lemma lstrip_bytes_sound codes l :
  ∃ ws, Forall (λ w, w ∈ codes) ws ∧ l = concat ws ++ lstrip_bytes codes l.
Proof. apply skip_all_sound. Qed.

(** UTF-8 is a prefix code, and so is this part of it. *)
Lemma whitespace_prefix_code : prefix_code whitespace.
Proof. unfold prefix_code. apply (bool_decide_unpack _). by vm_compute. Qed.

Lemma bytes_of_bytes l : bytes (of_bytes l) = l.
Proof. apply String.list_ascii_of_string_of_list_ascii. Qed.

Lemma of_bytes_empty l : of_bytes l = EmptyString → l = [].
Proof. intros H. apply (f_equal bytes) in H. by rewrite bytes_of_bytes in H. Qed.

Lemma reversed_codes (codes ws : list (list ascii)) :
  Forall (λ w, w ∈ reverse <$> codes) ws →
  ∃ ws', Forall (λ w, w ∈ codes) ws' ∧ reverse (concat ws) = concat ws'.
Proof.
  induction 1 as [|w ws Hw _ (ws' & Hws' & IH)]; simpl.
  - by exists [].
  - apply list_elem_of_fmap in Hw as (w0 & -> & Hw0).
    exists (ws' ++ [w0]). split.
    + apply Forall_app. split; [done | by constructor].
    + rewrite reverse_app, reverse_involutive, IH, concat_app. simpl.
      by rewrite app_nil_r.
Qed.

Lemma lstrip_blank s : blank s → lstrip s = EmptyString.
Proof.
  intros (ws & Hws & Hs). unfold lstrip, lstrip_bytes. rewrite Hs.
  by rewrite skip_all_complete by auto using whitespace_prefix_code.
Qed.

(** [strip()] leaves nothing exactly when the text is blank. *)
Lemma strip_empty_iff s : strip s = EmptyString ↔ blank s.
Proof.
  split.
  - unfold strip, rstrip, lstrip. rewrite bytes_of_bytes.
    intros Hr%of_bytes_empty. apply (f_equal reverse) in Hr.
    rewrite reverse_involutive, reverse_nil in Hr.
    destruct (lstrip_bytes_sound (reverse <$> whitespace)
                (reverse (lstrip_bytes whitespace (bytes s))))
      as (ws2 & Hws2 & Hrev).
    rewrite Hr, app_nil_r in Hrev.
    apply (f_equal reverse) in Hrev. rewrite reverse_involutive in Hrev.
    destruct (reversed_codes _ _ Hws2) as (ws2' & Hws2' & Hcat).
    destruct (lstrip_bytes_sound whitespace (bytes s)) as (ws1 & Hws1 & Hleft).
    exists (ws1 ++ ws2'). split; [by apply Forall_app|].
    rewrite concat_app, <- Hcat, <- Hrev. exact Hleft.
  - intros Hb. unfold strip. by rewrite lstrip_blank.
Qed.

Lemma strip_falsy s : Py.str_truthy (strip s) = false ↔ blank s.
Proof. rewrite <- strip_empty_iff. by destruct (strip s). Qed.

End StripFacts.

(** ** One iteration *)

(** Splits a goal about [process_chunk] into the paths through the body. *)
Ltac body_paths :=
  repeat match goal with
    | c : chunk |- _ => destruct c as [[[] ? ? ?]|]; simpl
    | |- context [?m !! "function_name"] =>
        destruct (m !! "function_name") as [[|? ?]|] eqn:?; simpl
    | |- context [Py.startswith ?s ?p] => destruct (Py.startswith s p) eqn:?; simpl
    | |- context [Py.truthy ?v] => destruct (Py.truthy v) eqn:?; simpl
    | |- context [match ?x with _ => _ end] =>
        lazymatch x with
        | Qcompare _ _ => fail
        | _ => destruct x eqn:?
        end
    end; simpl in *.

Lemma process_chunk_content st c :
  full_content (process_chunk st c).1
  = full_content st +:+ default EmptyString (delta c).
Proof.
  unfold process_chunk, delta. body_paths; simpl; by rewrite ?append_empty_r.
Qed.

Lemma process_chunk_steps st c :
  ∃ new, execution_steps (process_chunk st c).1 = execution_steps st ++ new
         ∧ length new ≤ 1.
Proof.
  unfold process_chunk. body_paths;
    first [ by exists []; rewrite app_nil_r; auto | by eexists [_]; auto ].
Qed.

Lemma progress_capped n cap : (cap < 1)%Q → (Qmin (tenth n) cap < 1)%Q.
Proof. intros Hcap. apply Q.min_lt_iff. by right. Qed.

Lemma process_chunk_filtered st c :
  is_run_completed c = false →
  length (execution_steps (process_chunk st c).1)
    = length (execution_steps st) + (if passes_filter c then 1 else 0)
  ∧ Forall (λ v, (v < 1)%Q) (progress_values (process_chunk st c).2).
Proof.
  unfold process_chunk, passes_filter, inspected_name, is_run_completed, chunk_event.
  body_paths; intros; simplify_eq/=;
    rewrite ?length_app; simpl; (split; [lia|]).
  all: repeat constructor; by apply progress_capped.
Qed.

Lemma process_chunk_counter st c :
  step_count (process_chunk st c).1 + (if is_run_completed c then 1 else 0)
    + length (execution_steps st)
  = length (execution_steps (process_chunk st c).1) + step_count st.
Proof.
  unfold process_chunk, is_run_completed, chunk_event.
  body_paths; rewrite ?length_app; simpl; lia.
Qed.

Lemma process_chunk_progress st c :
  Forall (λ v, v = (1 # 10)%Q ∨ v = 1%Q
               ∨ v = Qmin (tenth (step_count st + 1)) (9 # 10)
               ∨ v = Qmin (tenth (step_count st + 1)) (95 # 100))
         (progress_values (process_chunk st c).2).
Proof.
  unfold process_chunk.
  body_paths; repeat match goal with |- Forall _ _ => constructor end; auto.
Qed.

Lemma process_chunk_no_run st c : agent_runs (process_chunk st c).2 = [].
Proof. unfold process_chunk. by body_paths. Qed.

(** ** The loop *)

Lemma state_after_nil st : state_after st [] = st.
Proof. done. Qed.

Lemma state_after_raises st e rest : state_after st (raises e :: rest) = st.
Proof. done. Qed.

Lemma state_after_yields st c rest :
  state_after st (yields c :: rest) = state_after (process_chunk st c).1 rest.
Proof.
  unfold state_after. simpl. destruct (process_chunk st c) as [st1 calls1]. simpl.
  by destruct (run_loop st1 rest) as [[st2 calls2] raised].
Qed.

Lemma calls_of_nil st : calls_of st [] = [].
Proof. done. Qed.

Lemma calls_of_raises st e rest : calls_of st (raises e :: rest) = [].
Proof. done. Qed.

Lemma calls_of_yields st c rest :
  calls_of st (yields c :: rest)
  = (process_chunk st c).2 ++ calls_of (process_chunk st c).1 rest.
Proof.
  unfold calls_of. simpl. destruct (process_chunk st c) as [st1 calls1]. simpl.
  by destruct (run_loop st1 rest) as [[st2 calls2] raised].
Qed.

(** Induction on a stream, by what the first pull does. *)
Lemma stream_ind (P : list pull → Prop) :
  P [] → (∀ e rest, P (raises e :: rest)) →
  (∀ c rest, P rest → P (yields c :: rest)) → ∀ s, P s.
Proof. intros Hnil Hraise Hyield. induction s as [|[c|e] s IH]; auto. Qed.

Lemma content_after st s :
  full_content (state_after st s)
  = full_content st +:+ join (omap delta (delivered s)).
Proof.
  revert st. induction s as [| e rest | c rest IH] using stream_ind; intros st.
  - by rewrite state_after_nil, append_empty_r.
  - by rewrite state_after_raises, append_empty_r.
  - rewrite state_after_yields, IH, process_chunk_content, append_assoc.
    f_equal. simpl. by destruct (delta c).
Qed.

Lemma steps_after st s :
  ∃ new, execution_steps (state_after st s) = execution_steps st ++ new
         ∧ length new ≤ length (delivered s).
Proof.
  revert st. induction s as [| e rest | c rest IH] using stream_ind; intros st.
  - exists []. by rewrite app_nil_r.
  - exists []. by rewrite app_nil_r.
  - rewrite state_after_yields.
    destruct (IH (process_chunk st c).1) as (new2 & -> & Hlen2).
    destruct (process_chunk_steps st c) as (new1 & -> & Hlen1).
    exists (new1 ++ new2). rewrite app_assoc, length_app. simpl. split; [done | lia].
Qed.

(** A stream followed by another: the second part is consumed from the state
    the first one leaves, unless the first one raised. *)
Lemma state_after_app st s1 s2 :
  state_after st (s1 ++ s2) = state_after st s1
  ∨ state_after st (s1 ++ s2) = state_after (state_after st s1) s2.
Proof.
  revert st. induction s1 as [| e rest | c rest IH] using stream_ind; intros st.
  - by right.
  - by left.
  - simpl. rewrite !state_after_yields. apply IH.
Qed.


Lemma calls_of_no_run st s : agent_runs (calls_of st s) = [].
Proof.
  revert st. induction s as [| e rest | c rest IH] using stream_ind; intros st.
  - done.
  - done.
  - rewrite calls_of_yields. unfold agent_runs in *.
    by rewrite omap_app, process_chunk_no_run, IH.
Qed.

Lemma steps_counted st events :
  Forall (λ c, is_run_completed c = false) events →
  length (execution_steps (state_after st (yields <$> events)))
    = length (execution_steps st) + length (List.filter passes_filter events)
  ∧ Forall (λ v, (v < 1)%Q) (progress_values (calls_of st (yields <$> events))).
Proof.
  intros Hev. revert st. induction Hev as [|c events Hc _ IH]; intros st.
  - split; [simpl; rewrite state_after_nil; lia | constructor].
  - rewrite fmap_cons, state_after_yields, calls_of_yields.
    destruct (IH (process_chunk st c).1) as [-> Hprog].
    destruct (process_chunk_filtered st c Hc) as [-> Hprog1].
    split.
    + simpl. destruct (passes_filter c); simpl; lia.
    + unfold progress_values in *. rewrite omap_app. by apply Forall_app.
Qed.

Lemma counter_after st s :
  step_count (state_after st s) + length (List.filter is_run_completed (delivered s))
    + length (execution_steps st)
  = length (execution_steps (state_after st s)) + step_count st.
Proof.
  revert st. induction s as [| e rest | c rest IH] using stream_ind; intros st.
  - rewrite state_after_nil. simpl. lia.
  - rewrite state_after_raises. simpl. lia.
  - rewrite state_after_yields. simpl.
    pose proof (IH (process_chunk st c).1) as H1.
    pose proof (process_chunk_counter st c) as H2.
    destruct (is_run_completed c); simpl; lia.
Qed.

(** ** The label table *)

Lemma agent_map_values fn label_ :
  agent_map !! fn = Some label_ → Py.str_truthy label_ = true.
Proof.
  unfold agent_map. intros H%elem_of_list_to_map_2.
  repeat (apply elem_of_cons in H as [[= -> ->]|H]; [done|]).
  by apply elem_of_nil in H.
Qed.

Lemma label_truthy fn : Py.str_truthy (get_agent_name_from_function fn) = true.
Proof.
  unfold get_agent_name_from_function.
  destruct (agent_map !! fn) as [label_|] eqn:Hfn; simpl; [|done].
  by apply agent_map_values in Hfn.
Qed.

Lemma unknown_function_name fn :
  fn ∉ delegation_targets → get_agent_name_from_function fn = "🤖 Agent".
Proof.
  intros Hfn. unfold get_agent_name_from_function, agent_map.
  by rewrite (not_elem_of_list_to_map_1 _ fn).
Qed.

Lemma target_is_delegation fn :
  fn ∈ delegation_targets →
  Py.str_truthy fn = true ∧ Py.startswith fn delegation_prefix = true.
Proof.
  intros H. unfold delegation_targets, agent_keys in H. simpl in H.
  repeat (apply elem_of_cons in H as [->|H]; [done|]).
  by apply elem_of_nil in H.
Qed.

Lemma scan_keys_single keys text key :
  List.filter (λ k, Py.str_in k text) keys = [key] →
  scan_keys keys text
  = Some (get_agent_name_from_function (delegation_prefix +:+ key)).
Proof.
  induction keys as [|k keys IH]; simpl; [done|].
  destruct (Py.str_in k text); [by intros [= -> _] | done].
Qed.

(** Every value the body sets the progress bar to is one Streamlit accepts,
    so [progress_bar.progress] raises nothing. *)
Lemma process_chunk_progress_in_range st c :
  Forall (λ v, (0 <= v)%Q ∧ (v <= 1)%Q) (progress_values (process_chunk st c).2).
Proof.
  eapply Forall_impl; [apply process_chunk_progress|].
  assert (∀ n, (0 <= tenth n)%Q) as Htenth.
  { intros n. unfold tenth, Qle. simpl. lia. }
  intros v [-> | [-> | [-> | ->]]]; try done.
  - split; [by apply Q.min_glb | eapply Qle_trans; [apply Q.le_min_r | done]].
  - split; [by apply Q.min_glb | eapply Qle_trans; [apply Q.le_min_r | done]].
Qed.

(** ** The scenarios of the specification, evaluated *)

Example strip_removes_both_ends :
  Strip.strip "  Server down " = "Server down".
Proof. reflexivity. Qed.

Example no_break_space_is_blank :
  Strip.strip (Strip.of_bytes (Ascii.ascii_of_nat <$> [32; 194; 160; 9; 227; 128; 128]))
  = EmptyString.
Proof. reflexivity. Qed.

Example empty_submission :
  run_button_handler (λ _, []) "ntid@itsm.com" EmptyString EmptyString
  = [ warning "⚠️ Please enter incident details"; stop ].
Proof. reflexivity. Qed.

Example kb_lookup_then_delegation :
  let tool fn : gmap string string := {[ "function_name" := fn ]} in
  let st :=
    state_after initial_state
      [ yields (started [] (tool "lookup_kb_article") Py.None_ (Some "r1"));
        yields (started [] (tool "transfer_task_to_incident_analyzer") Py.None_
                        (Some "r1")) ] in
  title <$> execution_steps st = [ "Delegating to 🔍 Incident Analyzer" ]
  ∧ current_agent st = Some "🔍 Incident Analyzer"
  ∧ step_count st = 1.
Proof. by vm_compute. Qed.

(** * The claims *)

(** C1 (as the specification states it, refuted): a completion whose text
    holds the keyword ["task_analyzer"] but not the delegation prefix is not
    attributed to the Task Analyzer; with the Incident Analyzer remembered as
    current agent the step is titled after the Incident Analyzer. *)
Lemma keyword_alone_does_not_decide : ¬ detection_by_keyword_alone.
Proof.
  intros H.
  specialize (H {| execution_steps := [];
                   step_count := 0;
                   current_agent := Some "🔍 Incident Analyzer";
                   full_content := EmptyString;
                   run_id := None |}
                (Py.Str "task_analyzer done") None None "task_analyzer"
                eq_refl eq_refl).
  vm_compute in H. discriminate H.
Qed.

(** C1 (amended): for a [tool_call_completed] event whose non-empty content
    text contains the delegation prefix and exactly one of the five keywords,
    the success step is titled with that keyword's label, whatever the
    remembered current agent is. *)
Theorem completion_label_from_keyword st content tools run_id key :
  Py.truthy content = true →
  Py.str_in delegation_prefix (Py.str content) = true →
  keys_in (Py.str content) = [key] →
  (process_chunk st (completed content tools run_id)).1.(execution_steps)
  = execution_steps st ++
    [ completion_step (get_agent_name_from_function (delegation_prefix +:+ key))
                      (Py.str content) ].
Proof.
  intros Htruthy Hprefix Hkeys. unfold process_chunk, completed. simpl.
  rewrite Htruthy. simpl. unfold detect_agent. rewrite Hprefix.
  rewrite (scan_keys_single _ _ key) by exact Hkeys.
  unfold Py.or_ at 2. simpl. rewrite label_truthy.
  unfold Py.or_. simpl. by rewrite label_truthy.
Qed.

Lemma completion_label_from_keyword_witness :
  let st := {| execution_steps := [];
               step_count := 0;
               current_agent := Some "🔍 Incident Analyzer";
               full_content := EmptyString;
               run_id := None |} in
  let content := Py.Str "transfer_task_to_task_analyzer() completed in 1.2s" in
  Py.truthy content = true
  ∧ Py.str_in delegation_prefix (Py.str content) = true
  ∧ keys_in (Py.str content) = ["task_analyzer"]
  ∧ (process_chunk st (completed content None None)).1.(execution_steps)
    = [ completion_step "📊 Task Analyzer"
          "transfer_task_to_task_analyzer() completed in 1.2s" ].
Proof.
  do 3 (split; [reflexivity|]).
  exact (completion_label_from_keyword
           {| execution_steps := [];
              step_count := 0;
              current_agent := Some "🔍 Incident Analyzer";
              full_content := EmptyString;
              run_id := None |}
           (Py.Str "transfer_task_to_task_analyzer() completed in 1.2s")
           None None "task_analyzer" eq_refl eq_refl eq_refl).
Defined.

(** C2: for a sequence of events without [run_completed], consumed from the
    start of a run, the step list is as long as the number of events that
    pass the filters of section 4.1, and every value the progress bar is set
    to is below 1.0. *)
Theorem steps_match_filtered_events events :
  Forall (λ c, is_run_completed c = false) events →
  length (execution_steps (state_after initial_state (yields <$> events)))
    = length (List.filter passes_filter events)
  ∧ Forall (λ v, (v < 1)%Q)
           (progress_values (calls_of initial_state (yields <$> events))).
Proof. intros Hev. by destruct (steps_counted initial_state events Hev) as [-> ?]. Qed.

Lemma steps_match_filtered_events_witness :
  let events :=
    [ is_RunResponse (RunResponse.mk run_started Py.None_ None (Some "r1"));
      started [] {[ "function_name" := "transfer_task_to_ticket_creation" ]}
              Py.None_ (Some "r1");
      started [] {[ "function_name" := "lookup_kb_article" ]} Py.None_ (Some "r1");
      completed (Py.Str "ticket created") None (Some "r1");
      completed (Py.Str EmptyString) None (Some "r1");
      is_RunResponse (RunResponse.mk run_response (Py.Str "Ticket") None (Some "r1"));
      not_RunResponse ] in
  Forall (λ c, is_run_completed c = false) events
  ∧ length (execution_steps (state_after initial_state (yields <$> events))) = 3
  ∧ Forall (λ v, (v < 1)%Q)
           (progress_values (calls_of initial_state (yields <$> events))).
Proof.
  intros events.
  assert (Forall (λ c, is_run_completed c = false) events) as Hev
    by (repeat constructor).
  split; [exact Hev|]. exact (steps_match_filtered_events events Hev).
Defined.

(** C3: the buffer after a run is the concatenation, in arrival order, of
    the string deltas of the [run_response] events the loop received; one
    iteration appends the chunk's delta when it has one and leaves the buffer
    as it is otherwise. *)
Theorem content_is_concatenation_of_deltas :
  (∀ response_stream,
     full_content (state_after initial_state response_stream)
     = join (omap delta (delivered response_stream)))
  ∧ (∀ st response_stream,
       full_content (state_after st response_stream)
       = full_content st +:+ join (omap delta (delivered response_stream)))
  ∧ (∀ st c,
       full_content (process_chunk st c).1
       = full_content st +:+ default EmptyString (delta c)).
Proof.
  split; [|split].
  - intros s. by rewrite content_after.
  - apply content_after.
  - apply process_chunk_content.
Qed.

(** C4: for a [tool_call_started] event whose last tool names one of the
    five delegation targets, the step appended is titled "Delegating to "
    followed by the label [get_agent_name_from_function] gives for that name;
    the five names have the labels of the table, and every other name has the
    generic label. *)
Theorem delegation_step_title st earlier tool_info payload rid function_name :
  function_name ∈ delegation_targets →
  tool_info !! "function_name" = Some function_name →
  (process_chunk st (started earlier tool_info payload rid)).1
  = {| execution_steps :=
         execution_steps st ++
         [ {| icon := "🔄";
              title := "Delegating to " +:+ get_agent_name_from_function function_name;
              content := "Task transferred successfully";
              type := delegation |} ];
       step_count := step_count st + 1;
       current_agent := Some (get_agent_name_from_function function_name);
       full_content := full_content st;
       run_id := rid |}
  ∧ get_agent_name_from_function "transfer_task_to_task_analyzer"
    = "📊 Task Analyzer"
  ∧ get_agent_name_from_function "transfer_task_to_incident_analyzer"
    = "🔍 Incident Analyzer"
  ∧ get_agent_name_from_function "transfer_task_to_ticket_creation"
    = "🎫 Ticket Creation"
  ∧ get_agent_name_from_function "transfer_task_to_root_cause_analysis"
    = "🔬 Root Cause Analysis"
  ∧ get_agent_name_from_function "transfer_task_to_resolution_discovery"
    = "💡 Resolution Discovery"
  ∧ (∀ other, other ∉ delegation_targets →
              get_agent_name_from_function other = "🤖 Agent").
Proof.
  intros [Hname Hprefix]%target_is_delegation Htool.
  split; [|repeat (split; [reflexivity|]); apply unknown_function_name].
  unfold process_chunk, started. simpl.
  rewrite last_snoc, Htool. simpl. by rewrite Hname, Hprefix.
Qed.

Lemma delegation_step_title_witness :
  let tool_info : gmap string string :=
    {[ "function_name" := "transfer_task_to_root_cause_analysis" ]} in
  "transfer_task_to_root_cause_analysis" ∈ delegation_targets
  ∧ tool_info !! "function_name" = Some "transfer_task_to_root_cause_analysis"
  ∧ title <$> execution_steps
                (process_chunk initial_state (started [] tool_info Py.None_ None)).1
    = [ "Delegating to 🔬 Root Cause Analysis" ]
  ∧ get_agent_name_from_function "lookup_kb_article" = "🤖 Agent".
Proof.
  intros tool_info.
  assert ("transfer_task_to_root_cause_analysis" ∈ delegation_targets) as Hin
    by (apply (bool_decide_unpack _); reflexivity).
  assert ("lookup_kb_article" ∉ delegation_targets) as Hout
    by (apply (bool_decide_unpack _); reflexivity).
  pose proof (delegation_step_title initial_state [] tool_info Py.None_ None
                "transfer_task_to_root_cause_analysis" Hin eq_refl) as H.
  split; [exact Hin|]. split; [reflexivity|]. split.
  - destruct H as [-> _]. reflexivity.
  - destruct H as (_ & _ & _ & _ & _ & _ & Hother). exact (Hother _ Hout).
Defined.

(** C5: a [tool_call_started] event whose function name does not begin with
    the delegation prefix makes no call, so no step is drawn, and leaves the
    state as it is but for the run id: the step list, the counter, the
    current agent and the buffer are unchanged. *)
Theorem other_tool_is_ignored st earlier tool_info payload rid function_name :
  tool_info !! "function_name" = Some function_name →
  Py.startswith function_name delegation_prefix = false →
  process_chunk st (started earlier tool_info payload rid) = (with_run_id st rid, []).
Proof.
  intros Htool Hprefix. unfold process_chunk, started. simpl.
  rewrite last_snoc, Htool. simpl.
  destruct (Py.str_truthy function_name); simpl; [by rewrite Hprefix | done].
Qed.

Lemma other_tool_is_ignored_witness :
  let st := {| execution_steps := [];
               step_count := 0;
               current_agent := Some "🔍 Incident Analyzer";
               full_content := "so far";
               run_id := None |} in
  let tool_info : gmap string string := {[ "function_name" := "lookup_kb_article" ]} in
  tool_info !! "function_name" = Some "lookup_kb_article"
  ∧ Py.startswith "lookup_kb_article" delegation_prefix = false
  ∧ process_chunk st (started [] tool_info Py.None_ (Some "r1"))
    = (with_run_id st (Some "r1"), []).
Proof.
  intros st tool_info. do 2 (split; [reflexivity|]).
  exact (other_tool_is_ignored st [] tool_info Py.None_ (Some "r1")
           "lookup_kb_article" eq_refl eq_refl).
Defined.

(** C6: when the subject and the body are both blank, the handler warns and
    stops: the agent is not run and no step is drawn.  In every other case it
    goes on to the [try] statement, which runs the agent on the prompt built
    from the fields. *)
Theorem blank_submission_is_rejected agent email_from email_subject email_body :
  let calls := run_button_handler agent email_from email_subject email_body in
  let prompt := user_input email_from email_subject email_body in
  (Strip.blank email_subject ∧ Strip.blank email_body
   ∧ calls = [ warning "⚠️ Please enter incident details"; stop ]
   ∧ agent_runs calls = [] ∧ renderings calls = [])
  ∨ (¬ (Strip.blank email_subject ∧ Strip.blank email_body)
     ∧ calls = [ progress_create 0; markdown "## 📋 Execution Steps" ]
               ++ try_block prompt (agent prompt)
     ∧ ∃ rest, calls = [ progress_create 0; markdown "## 📋 Execution Steps";
                         Sister_run prompt ] ++ rest).
Proof.
  intros calls prompt. subst calls. unfold run_button_handler.
  destruct (Py.str_truthy (Strip.strip email_subject)) eqn:Hs; simpl.
  - right. split; [|split; [done | by eexists]].
    intros [Hblank _]. apply StripFacts.strip_falsy in Hblank. congruence.
  - destruct (Py.str_truthy (Strip.strip email_body)) eqn:Hb; simpl.
    + right. split; [|split; [done | by eexists]].
      intros [_ Hblank]. apply StripFacts.strip_falsy in Hblank. congruence.
    + left. by rewrite <- !StripFacts.strip_falsy.
Qed.



(** C8: at any two points of a run, the buffer at the earlier point is a
    prefix of the buffer at the later one, and the step list at the earlier
    point is a prefix of the step list at the later one, which has at most
    one more step for each chunk received in between: text and steps are only
    appended, so the steps stand in the order their events arrived. *)
Theorem buffer_and_steps_only_grow st earlier later :
  (∃ appended,
     full_content (state_after st (earlier ++ later))
     = full_content (state_after st earlier) +:+ appended)
  ∧ (∃ new,
       execution_steps (state_after st (earlier ++ later))
       = execution_steps (state_after st earlier) ++ new
       ∧ length new ≤ length (delivered later)).
Proof.
  destruct (state_after_app st earlier later) as [-> | ->].
  - split.
    + exists EmptyString. by rewrite append_empty_r.
    + exists []. rewrite app_nil_r. split; [done | simpl; lia].
  - split.
    + eexists. apply content_after.
    + apply steps_after.
Qed.

(** C9: when the last element of the [tools] list of a [tool_call_started]
    event is not a delegation (it has no function name, or one without the
    delegation prefix), the event makes no call and changes nothing but the
    run id, whatever the earlier elements of the list are. *)
Theorem only_last_tool_is_inspected st earlier tool_info payload rid :
  delegates tool_info = false →
  process_chunk st (started earlier tool_info payload rid) = (with_run_id st rid, []).
Proof.
  unfold delegates. intros Hlast. unfold process_chunk, started. simpl.
  rewrite last_snoc.
  destruct (tool_info !! "function_name") as [function_name|]; simpl; [|done].
  destruct (Py.str_truthy function_name); simpl; [by rewrite Hlast | done].
Qed.

Lemma only_last_tool_is_inspected_witness :
  let st := {| execution_steps := [];
               step_count := 0;
               current_agent := Some "🎫 Ticket Creation";
               full_content := EmptyString;
               run_id := None |} in
  let earlier : list (gmap string string) :=
    [ {[ "function_name" := "transfer_task_to_incident_analyzer" ]} ] in
  let tool_info : gmap string string := {[ "function_name" := "lookup_kb_article" ]} in
  delegates tool_info = false
  ∧ Forall (λ t, delegates t = true) earlier
  ∧ process_chunk st (started earlier tool_info Py.None_ (Some "r1"))
    = (with_run_id st (Some "r1"), []).
Proof.
  intros st earlier tool_info. split; [reflexivity|]. split; [by repeat constructor|].
  exact (only_last_tool_is_inspected st earlier tool_info Py.None_ (Some "r1") eq_refl).
Defined.

(** C10: a [run_completed] event appends its success step and leaves the
    counter as it is, so after any stream the counter plus the number of
    [run_completed] events received is the length of the step list; and the
    fractions the progress bar is set to are computed from the counter. *)
Theorem completion_step_is_not_counted :
  (∀ st payload tool_list rid,
     (process_chunk st
        (is_RunResponse (RunResponse.mk run_completed payload tool_list rid))).1
     = {| execution_steps :=
            execution_steps st ++
            [ {| icon := "✨";
                 title := "Orchestration Completed";
                 content := "All agents finished successfully";
                 type := success |} ];
          step_count := step_count st;
          current_agent := current_agent st;
          full_content := full_content st;
          run_id := rid |})
  ∧ (∀ response_stream,
       step_count (state_after initial_state response_stream)
       + length (List.filter is_run_completed (delivered response_stream))
       = length (execution_steps (state_after initial_state response_stream)))
  ∧ (∀ st c,
       Forall (λ v, v = (1 # 10)%Q ∨ v = 1%Q
                    ∨ v = Qmin (tenth (step_count st + 1)) (9 # 10)
                    ∨ v = Qmin (tenth (step_count st + 1)) (95 # 100))
              (progress_values (process_chunk st c).2)).
Proof.
  split; [done | split].
  - intros s. pose proof (counter_after initial_state s) as H. simpl in H. lia.
  - apply process_chunk_progress.
Qed.

(** * Further properties of the handler *)

(** ** Substrings *)


Lemma app_cons a s t : String a s +:+ t = String a (s +:+ t).
Proof. done. Qed.

Lemma startswith_spec s p :
  Py.startswith s p = true ↔ ∃ post, s = p +:+ post.
Proof.
  revert s. induction p as [|a p IH]; intros s.
  - split; [by exists s | by destruct s].
  - destruct s as [|b s]; simpl.
    + split; [done | by intros [post ?]].
    + destruct (decide (a = b)) as [->|Hne].
      * rewrite IH. split; intros [post Hpost]; exists post.
        -- by rewrite app_cons, Hpost.
        -- rewrite app_cons in Hpost. by injection Hpost.
      * split; [done|]. intros [post Hpost]. rewrite app_cons in Hpost.
        by injection Hpost as ->.
Qed.

Lemma str_in_spec sub s :
  Py.str_in sub s = true ↔ ∃ pre post, s = pre +:+ sub +:+ post.
Proof.
  induction s as [|b s IH].
  - cbn [Py.str_in]. rewrite orb_false_r, startswith_spec. split.
    + intros [post ->]. by exists EmptyString, post.
    + intros ([|? ?] & post & Hs); [by exists post | done].
  - cbn [Py.str_in]. rewrite orb_true_iff, startswith_spec, IH. split.
    + intros [[post ->] | (pre & post & ->)].
      * by exists EmptyString, post.
      * by exists (String b pre), post.
    + intros ([|a pre] & post & Hs).
      * left. by exists post.
      * right. rewrite app_cons in Hs. injection Hs as -> ->. by exists pre, post.
Qed.

Lemma str_in_app_l a b s : Py.str_in (a +:+ b) s = true → Py.str_in a s = true.
Proof.
  rewrite !str_in_spec. intros (pre & post & ->).
  exists pre, (b +:+ post). by rewrite append_assoc.
Qed.

Lemma str_in_app_r a b s : Py.str_in (a +:+ b) s = true → Py.str_in b s = true.
Proof.
  rewrite !str_in_spec. intros (pre & post & ->).
  exists (pre +:+ a), post. by rewrite !append_assoc.
Qed.

(** ** More on one iteration *)

Lemma label_known fn : get_agent_name_from_function fn ∈ agent_labels.
Proof.
  unfold get_agent_name_from_function.
  destruct (agent_map !! fn) as [label_|] eqn:Hfn; simpl.
  - unfold agent_map in Hfn. apply elem_of_list_to_map_2 in Hfn.
    repeat (apply elem_of_cons in Hfn as [[= -> ->]|Hfn];
            [apply (bool_decide_unpack _); reflexivity|]).
    by apply elem_of_nil in Hfn.
  - by left.
Qed.

Lemma scan_keys_head keys text :
  scan_keys keys text
  = label_of_key <$> head (List.filter (λ k, Py.str_in k text) keys).
Proof.
  induction keys as [|k keys IH]; simpl; [done|].
  by destruct (Py.str_in k text).
Qed.

(** The [tool_call_started] branch, by the function name it inspects. *)
Lemma process_tool_call_started st r :
  RunResponse.event r = tool_call_started →
  process_chunk st (is_RunResponse r)
  = if passes_filter (is_RunResponse r)
    then
      let agent :=
        get_agent_name_from_function (Py.str_opt (inspected_name r)) in
      let st' :=
        {| execution_steps := execution_steps st ++ [ delegation_step agent ];
           step_count := step_count st + 1;
           current_agent := Some agent;
           full_content := full_content st;
           run_id := RunResponse.run_id r |} in
      (st',
       [ progress_bar_progress (Qmin (tenth (step_count st + 1)) (9 # 10));
         status_text_info ("🔄 Delegating to " +:+ agent);
         render (execution_steps st') ])
    else (with_run_id st (RunResponse.run_id r), []).
Proof.
  destruct r as [ev payload tool_list rid]. simpl. intros ->.
  unfold process_chunk, passes_filter, inspected_name. cbn [RunResponse.event
    RunResponse.tools RunResponse.run_id RunResponse.content].
  destruct tool_list as [tool_list|]; [|done].
  destruct (last tool_list) as [tool_info|]; [|done].
  destruct (tool_info !! "function_name") as [[|a fn]|]; [done| |done].
  cbn [Py.opt_truthy Py.str_truthy negb Py.str_opt].
  by destruct (Py.startswith (String a fn) delegation_prefix).
Qed.

(** The [tool_call_completed] branch, by the truth value of the content. *)
Lemma process_tool_call_completed st r :
  RunResponse.event r = tool_call_completed →
  process_chunk st (is_RunResponse r)
  = if passes_filter (is_RunResponse r)
    then
      let text := Py.str (RunResponse.content r) in
      let agent :=
        Py.str_opt (Py.or_ (Py.or_ (detect_agent text) (current_agent st))
                           (Some "🤖 Agent")) in
      let st' :=
        {| execution_steps := execution_steps st ++ [ completion_step agent text ];
           step_count := step_count st + 1;
           current_agent := None;
           full_content := full_content st;
           run_id := RunResponse.run_id r |} in
      (st',
       [ progress_bar_progress (Qmin (tenth (step_count st + 1)) (95 # 100));
         render (execution_steps st') ])
    else (with_run_id st (RunResponse.run_id r), []).
Proof.
  destruct r as [ev payload tool_list rid]. simpl. intros ->.
  unfold process_chunk, passes_filter. cbn [RunResponse.event
    RunResponse.tools RunResponse.run_id RunResponse.content].
  by destruct (Py.truthy payload).
Qed.

(** Splits a goal about a chunk by its kind, with the tool events in the
    form of the two lemmas above. *)
Ltac chunk_kinds st c :=
  let r := fresh "r" in
  let Hev := fresh "Hev" in
  unfold touches_agent, silent, is_run_completed, chunk_event;
  destruct c as [r|];
  [ destruct (RunResponse.event r) eqn:Hev;
    [ idtac
    | rewrite (process_tool_call_started st r Hev);
      destruct (passes_filter (is_RunResponse r)) eqn:?
    | rewrite (process_tool_call_completed st r Hev);
      destruct (passes_filter (is_RunResponse r)) eqn:?
    | idtac | idtac | idtac ];
    destruct r as [? ? ? ?]; simpl in Hev; subst;
    cbn [passes_filter RunResponse.event RunResponse.tools RunResponse.run_id
         RunResponse.content]
  | idtac ].

Lemma process_chunk_silent st c :
  silent c = true →
  execution_steps (process_chunk st c).1 = execution_steps st
  ∧ step_count (process_chunk st c).1 = step_count st
  ∧ current_agent (process_chunk st c).1 = current_agent st
  ∧ progress_values (process_chunk st c).2 = [].
Proof.
  chunk_kinds st c; try done.
  intros _. simpl. by match goal with v : Py.value |- _ => destruct v end.
Qed.

Lemma process_chunk_agent st c :
  touches_agent c = false →
  current_agent (process_chunk st c).1 = current_agent st.
Proof.
  chunk_kinds st c; try done.
  intros _. simpl. by match goal with v : Py.value |- _ => destruct v end.
Qed.

(** ** More on the loop *)


Lemma run_loop_projections st s :
  run_loop st s = (state_after st s, calls_of st s, raised s).
Proof.
  revert st. induction s as [|[c|e] s IH]; intros st; [done | | done].
  rewrite state_after_yields, calls_of_yields. simpl.
  destruct (process_chunk st c) as [st1 calls1]. simpl. by rewrite IH.
Qed.

Lemma raised_yields events rest : raised ((yields <$> events) ++ rest) = raised rest.
Proof. induction events as [|c events IH]; [done | exact IH]. Qed.

Lemma state_after_yields_app st events rest :
  state_after st ((yields <$> events) ++ rest)
  = state_after (state_after st (yields <$> events)) rest.
Proof.
  revert st. induction events as [|c events IH]; intros st; [done|].
  rewrite fmap_cons. simpl. by rewrite !state_after_yields, IH.
Qed.

Lemma calls_of_yields_app st events rest :
  calls_of st ((yields <$> events) ++ rest)
  = calls_of st (yields <$> events)
    ++ calls_of (state_after st (yields <$> events)) rest.
Proof.
  revert st. induction events as [|c events IH]; intros st; [done|].
  rewrite fmap_cons. simpl.
  by rewrite !calls_of_yields, !state_after_yields, IH, app_assoc.
Qed.

Lemma silent_after st events :
  Forall (λ c, silent c = true) events →
  execution_steps (state_after st (yields <$> events)) = execution_steps st
  ∧ step_count (state_after st (yields <$> events)) = step_count st
  ∧ current_agent (state_after st (yields <$> events)) = current_agent st
  ∧ progress_values (calls_of st (yields <$> events)) = [].
Proof.
  intros Hev. revert st. induction Hev as [|c events Hc _ IH]; intros st; [done|].
  rewrite fmap_cons, state_after_yields, calls_of_yields.
  destruct (process_chunk_silent st c Hc) as (H1 & H2 & H3 & H4).
  destruct (IH (process_chunk st c).1) as (-> & -> & -> & H5).
  unfold progress_values in *. by rewrite omap_app, H4, H5.
Qed.

Lemma agent_after st events :
  Forall (λ c, touches_agent c = false) events →
  current_agent (state_after st (yields <$> events)) = current_agent st.
Proof.
  intros Hev. revert st. induction Hev as [|c events Hc _ IH]; intros st; [done|].
  by rewrite fmap_cons, state_after_yields, IH, process_chunk_agent.
Qed.

(** X1: tool events that pass no filter, response text, unrecognised events
    and objects that are no [RunResponse] add no step, leave the counter and the
    remembered agent as they are and never move the progress bar, however many
    of them a stream holds. *)
Theorem silent_events_change_nothing st events :
  Forall (λ c, silent c = true) events →
  execution_steps (state_after st (yields <$> events)) = execution_steps st
  ∧ step_count (state_after st (yields <$> events)) = step_count st
  ∧ current_agent (state_after st (yields <$> events)) = current_agent st
  ∧ progress_values (calls_of st (yields <$> events)) = [].
Proof. apply silent_after. Qed.

Lemma silent_events_change_nothing_witness :
  let st := {| execution_steps := [ run_started_step ];
               step_count := 1;
               current_agent := Some "🎫 Ticket Creation";
               full_content := "so far";
               run_id := None |} in
  let response ev payload tool_list :=
    is_RunResponse (RunResponse.mk ev payload tool_list (Some "r1")) in
  let events :=
    [ response tool_call_started Py.None_ None;
      response tool_call_started Py.None_ (Some []);
      response tool_call_started Py.None_ (Some [ ∅ ]);
      response tool_call_started Py.None_
               (Some [ {[ "function_name" := EmptyString ]} ]);
      response tool_call_started Py.None_
               (Some [ {[ "function_name" := "lookup_kb_article" ]} ]);
      response tool_call_completed Py.None_ None;
      response tool_call_completed (Py.Str EmptyString) None;
      response run_response (Py.Str "text") None;
      response (other_event "UpdatingMemory") Py.None_ None;
      not_RunResponse ] in
  Forall (λ c, silent c = true) events
  ∧ execution_steps (state_after st (yields <$> events)) = [ run_started_step ]
  ∧ step_count (state_after st (yields <$> events)) = 1
  ∧ current_agent (state_after st (yields <$> events)) = Some "🎫 Ticket Creation"
  ∧ progress_values (calls_of st (yields <$> events)) = [].
Proof.
  intros st response events.
  assert (Forall (λ c, silent c = true) events) as Hev by (repeat constructor).
  split; [exact Hev|]. exact (silent_events_change_nothing st events Hev).
Defined.

Lemma detect_agent_keys text :
  Py.str_in delegation_prefix text = true →
  detect_agent text = label_of_key <$> head (keys_in text).
Proof. intros Hp. unfold detect_agent. rewrite Hp. apply scan_keys_head. Qed.

Lemma completion_with_label st payload tool_list rid agent :
  Py.truthy payload = true →
  detect_agent (Py.str payload) = Some (get_agent_name_from_function agent) →
  (process_chunk st (completed payload tool_list rid)).1.(execution_steps)
  = execution_steps st ++
    [ completion_step (get_agent_name_from_function agent) (Py.str payload) ].
Proof.
  intros Htruthy Hdetect. unfold completed.
  rewrite process_tool_call_completed by done.
  unfold passes_filter. simpl. rewrite Htruthy. simpl. rewrite Hdetect.
  unfold Py.or_ at 2. simpl. rewrite label_truthy.
  unfold Py.or_. simpl. by rewrite label_truthy.
Qed.

Lemma completion_first_key st payload tool_list rid key others :
  Py.truthy payload = true →
  Py.str_in delegation_prefix (Py.str payload) = true →
  keys_in (Py.str payload) = key :: others →
  (process_chunk st (completed payload tool_list rid)).1.(execution_steps)
  = execution_steps st ++ [ completion_step (label_of_key key) (Py.str payload) ].
Proof.
  intros Htruthy Hprefix Hkeys. apply completion_with_label; [done|].
  by rewrite detect_agent_keys, Hkeys.
Qed.

(** X2: when the text of a completion holds the delegation prefix and
    several keywords, the step is attributed to the keyword that comes first
    in the fixed order of the scan (task_analyzer, incident_analyzer,
    ticket_creation, root_cause_analysis, resolution_discovery), wherever
    the keywords stand in the text. *)
Theorem first_key_of_the_scan_wins st payload tool_list rid key others :
  Py.truthy payload = true →
  Py.str_in delegation_prefix (Py.str payload) = true →
  keys_in (Py.str payload) = key :: others →
  (process_chunk st (completed payload tool_list rid)).1.(execution_steps)
  = execution_steps st ++ [ completion_step (label_of_key key) (Py.str payload) ].
Proof. apply completion_first_key. Qed.

Lemma first_key_of_the_scan_wins_witness :
  let payload :=
    Py.Str "transfer_task_to_incident_analyzer: escalated by task_analyzer" in
  Py.truthy payload = true
  ∧ Py.str_in delegation_prefix (Py.str payload) = true
  ∧ keys_in (Py.str payload) = [ "task_analyzer"; "incident_analyzer" ]
  ∧ title <$> (process_chunk initial_state (completed payload None None)).1
                .(execution_steps)
    = [ "📊 Task Analyzer - Completed" ].
Proof.
  intros payload. do 3 (split; [reflexivity|]).
  exact (f_equal (fmap title)
           (first_key_of_the_scan_wins initial_state payload None None
              "task_analyzer" [ "incident_analyzer" ] eq_refl eq_refl eq_refl)).
Defined.

(** X3: a completion whose text holds the function name of a delegation
    target is attributed to a keyword found in the text, never to the
    remembered agent or the generic label. *)
Theorem named_target_is_detected st payload tool_list rid key :
  Py.truthy payload = true →
  key ∈ agent_keys →
  Py.str_in (delegation_prefix +:+ key) (Py.str payload) = true →
  ∃ found,
    found ∈ agent_keys
    ∧ Py.str_in found (Py.str payload) = true
    ∧ (process_chunk st (completed payload tool_list rid)).1.(execution_steps)
      = execution_steps st ++
        [ completion_step (label_of_key found) (Py.str payload) ].
Proof.
  intros Htruthy Hkey Hin.
  pose proof (str_in_app_l _ _ _ Hin) as Hprefix.
  pose proof (str_in_app_r _ _ _ Hin) as Hfound.
  assert (key ∈ keys_in (Py.str payload)) as Hkeys.
  { unfold keys_in. apply list_elem_of_In, filter_In.
    split; [by apply list_elem_of_In | done]. }
  destruct (keys_in (Py.str payload)) as [|found others] eqn:Hlist;
    [by apply elem_of_nil in Hkeys|].
  assert (found ∈ keys_in (Py.str payload)) as Hmem by (rewrite Hlist; left).
  unfold keys_in in Hmem. apply list_elem_of_In, filter_In in Hmem as [Hm1 Hm2].
  exists found. split; [by apply list_elem_of_In|]. split; [done|].
  by apply (completion_first_key _ _ _ _ _ others).
Qed.

Lemma named_target_is_detected_witness :
  let st := {| execution_steps := [];
               step_count := 0;
               current_agent := Some "🎫 Ticket Creation";
               full_content := EmptyString;
               run_id := None |} in
  let payload := Py.Str "transfer_task_to_root_cause_analysis() completed in 2.1s" in
  Py.truthy payload = true
  ∧ "root_cause_analysis" ∈ agent_keys
  ∧ Py.str_in (delegation_prefix +:+ "root_cause_analysis") (Py.str payload) = true
  ∧ ∃ found,
      found ∈ agent_keys
      ∧ Py.str_in found (Py.str payload) = true
      ∧ (process_chunk st (completed payload None None)).1.(execution_steps)
        = execution_steps st ++
          [ completion_step (label_of_key found) (Py.str payload) ].
Proof.
  intros st payload.
  assert ("root_cause_analysis" ∈ agent_keys) as Hkey
    by (apply (bool_decide_unpack _); reflexivity).
  split; [reflexivity|]. split; [exact Hkey|]. split; [reflexivity|].
  exact (named_target_is_detected st payload None None "root_cause_analysis"
           eq_refl Hkey eq_refl).
Defined.

Lemma started_passes earlier tool_info payload rid fn :
  tool_info !! "function_name" = Some fn →
  Py.startswith fn delegation_prefix = true →
  passes_filter (started earlier tool_info payload rid) = true
  ∧ inspected_name
      {| RunResponse.event := tool_call_started;
         RunResponse.content := payload;
         RunResponse.tools := Some (earlier ++ [tool_info]);
         RunResponse.run_id := rid |} = Some fn.
Proof.
  intros Htool Hprefix. unfold started, passes_filter, inspected_name. simpl.
  by rewrite last_snoc, Htool.
Qed.

Lemma delegation_remembered st earlier tool_info payload rid fn :
  tool_info !! "function_name" = Some fn →
  Py.startswith fn delegation_prefix = true →
  current_agent (process_chunk st (started earlier tool_info payload rid)).1
  = Some (get_agent_name_from_function fn).
Proof.
  intros Htool Hprefix.
  destruct (started_passes earlier tool_info payload rid fn Htool Hprefix)
    as [Hpass Hname].
  unfold started in *. rewrite process_tool_call_started by done.
  rewrite Hpass. simpl. by rewrite Hname.
Qed.

Lemma completion_undetected st payload tool_list rid :
  Py.truthy payload = true →
  Py.str_in delegation_prefix (Py.str payload) = false →
  process_chunk st (completed payload tool_list rid)
  = (let agent :=
       Py.str_opt (Py.or_ (current_agent st) (Some "🤖 Agent")) in
     let st' :=
       {| execution_steps :=
            execution_steps st ++ [ completion_step agent (Py.str payload) ];
          step_count := step_count st + 1;
          current_agent := None;
          full_content := full_content st;
          run_id := rid |} in
     (st',
      [ progress_bar_progress (Qmin (tenth (step_count st + 1)) (95 # 100));
        render (execution_steps st') ])).
Proof.
  intros Htruthy Hprefix. unfold completed.
  rewrite process_tool_call_completed by done.
  unfold passes_filter, detect_agent. simpl. by rewrite Htruthy, Hprefix.
Qed.

(** X4: a completion whose text lacks the delegation prefix is attributed to
    the most recent delegation, across any chunks in between that neither
    delegate nor complete (response text, run events, ignored tool events);
    the remembered agent is cleared by it. *)
Theorem completion_follows_delegation
    st earlier tool_info fn payload0 rid0 between payload tool_list rid :
  tool_info !! "function_name" = Some fn →
  Py.startswith fn delegation_prefix = true →
  Forall (λ c, touches_agent c = false) between →
  Py.truthy payload = true →
  Py.str_in delegation_prefix (Py.str payload) = false →
  let st' :=
    state_after st
      (yields <$> started earlier tool_info payload0 rid0
                  :: between ++ [ completed payload tool_list rid ]) in
  last (execution_steps st')
  = Some (completion_step (get_agent_name_from_function fn) (Py.str payload))
  ∧ current_agent st' = None.
Proof.
  intros Htool Hfn Hbetween Htruthy Hprefix.
  rewrite fmap_cons, fmap_app. cbn [fmap list_fmap].
  rewrite state_after_yields, state_after_yields_app, state_after_yields,
    state_after_nil.
  rewrite completion_undetected by done. cbn [fst].
  rewrite agent_after by done.
  rewrite (delegation_remembered _ _ _ _ _ fn) by done.
  unfold Py.or_. simpl. rewrite label_truthy. simpl.
  by rewrite last_snoc.
Qed.

Lemma completion_follows_delegation_witness :
  let tool_info : gmap string string :=
    {[ "function_name" := "transfer_task_to_ticket_creation" ]} in
  let response ev payload :=
    is_RunResponse (RunResponse.mk ev payload None (Some "r1")) in
  let between :=
    [ response run_response (Py.Str "Creating");
      response tool_call_completed Py.None_;
      response (other_event "UpdatingMemory") Py.None_ ] in
  let st' :=
    state_after initial_state
      (yields <$> started [] tool_info Py.None_ (Some "r1")
                  :: between ++ [ completed (Py.Str "INC-42 created") None None ]) in
  tool_info !! "function_name" = Some "transfer_task_to_ticket_creation"
  ∧ Py.startswith "transfer_task_to_ticket_creation" delegation_prefix = true
  ∧ Forall (λ c, touches_agent c = false) between
  ∧ last (execution_steps st')
    = Some (completion_step "🎫 Ticket Creation" "INC-42 created")
  ∧ current_agent st' = None.
Proof.
  intros tool_info response between st'.
  assert (Forall (λ c, touches_agent c = false) between) as Hbetween
    by (repeat constructor).
  do 2 (split; [reflexivity|]). split; [exact Hbetween|].
  exact (completion_follows_delegation initial_state [] tool_info
           "transfer_task_to_ticket_creation" Py.None_ (Some "r1") between
           (Py.Str "INC-42 created") None None eq_refl eq_refl Hbetween
           eq_refl eq_refl).
Defined.

(** X5: the remembered agent serves one completion only: a second completion
    whose text lacks the delegation prefix, with nothing delegated in between,
    is attributed to the generic agent. *)
Theorem second_completion_is_generic
    st payload1 tool_list1 rid1 between payload2 tool_list2 rid2 :
  Py.truthy payload1 = true →
  Forall (λ c, touches_agent c = false) between →
  Py.truthy payload2 = true →
  Py.str_in delegation_prefix (Py.str payload2) = false →
  last (execution_steps
          (state_after st
             (yields <$> completed payload1 tool_list1 rid1
                         :: between ++ [ completed payload2 tool_list2 rid2 ])))
  = Some (completion_step "🤖 Agent" (Py.str payload2)).
Proof.
  intros Htruthy1 Hbetween Htruthy2 Hprefix.
  rewrite fmap_cons, fmap_app. cbn [fmap list_fmap].
  rewrite state_after_yields, state_after_yields_app, state_after_yields,
    state_after_nil.
  rewrite completion_undetected by done. cbn [fst].
  rewrite agent_after by done.
  assert (current_agent (process_chunk st (completed payload1 tool_list1 rid1)).1
          = None) as ->.
  { unfold completed. rewrite process_tool_call_completed by done.
    unfold passes_filter. simpl. by rewrite Htruthy1. }
  simpl. by rewrite last_snoc.
Qed.

Lemma second_completion_is_generic_witness :
  let st := {| execution_steps := [];
               step_count := 0;
               current_agent := Some "🔍 Incident Analyzer";
               full_content := EmptyString;
               run_id := None |} in
  Py.truthy (Py.Str "analysis done") = true
  ∧ Forall (λ c, touches_agent c = false) [ not_RunResponse ]
  ∧ Py.truthy (Py.Str "more output") = true
  ∧ Py.str_in delegation_prefix "more output" = false
  ∧ last (execution_steps
            (state_after st
               (yields <$> [ completed (Py.Str "analysis done") None None;
                             not_RunResponse;
                             completed (Py.Str "more output") None None ])))
    = Some (completion_step "🤖 Agent" "more output").
Proof.
  intros st.
  assert (Forall (λ c, touches_agent c = false) [ not_RunResponse ]) as Hbetween
    by (repeat constructor).
  split; [reflexivity|]. split; [exact Hbetween|]. do 2 (split; [reflexivity|]).
  exact (second_completion_is_generic st (Py.Str "analysis done") None None
           [ not_RunResponse ] (Py.Str "more output") None None
           eq_refl Hbetween eq_refl eq_refl).
Defined.

(** ** Invariants of a run *)

Lemma detect_agent_known text agent :
  detect_agent text = Some agent → agent ∈ agent_labels.
Proof.
  unfold detect_agent. destruct (Py.str_in delegation_prefix text); [|done].
  rewrite scan_keys_head.
  destruct (head _) as [key|]; simpl; [|done].
  intros [= <-]. apply label_known.
Qed.

Lemma completion_agent_known detected remembered :
  (∀ agent, detected = Some agent → agent ∈ agent_labels) →
  (∀ agent, remembered = Some agent → agent ∈ agent_labels) →
  Py.str_opt (Py.or_ (Py.or_ detected remembered) (Some "🤖 Agent")) ∈ agent_labels.
Proof.
  intros Hd Hr. unfold Py.or_.
  destruct detected as [[|a d]|]; simpl.
  - destruct remembered as [[|b r]|]; simpl; [by left | by apply Hr | by left].
  - by apply Hd.
  - destruct remembered as [[|b r]|]; simpl; [by left | by apply Hr | by left].
Qed.

Lemma process_chunk_shapes st c :
  Forall step_shape (execution_steps st) →
  (∀ agent, current_agent st = Some agent → agent ∈ agent_labels) →
  Forall step_shape (execution_steps (process_chunk st c).1)
  ∧ (∀ agent, current_agent (process_chunk st c).1 = Some agent →
              agent ∈ agent_labels).
Proof.
  intros Hsteps Hagent. chunk_kinds st c; simpl; try done.
  - split; [|done]. apply Forall_app. split; [done|].
    constructor; [|done]. by left.
  - split.
    + apply Forall_app. split; [done|]. constructor; [|done].
      right. left. eexists. split; [apply label_known | done].
    + intros agent [= <-]. apply label_known.
  - split; [|done]. apply Forall_app. split; [done|]. constructor; [|done].
    right. right. left. eexists _, _. split; [|done].
    apply completion_agent_known; [apply detect_agent_known | done].
  - by match goal with v : Py.value |- _ => destruct v end.
  - split; [|done]. apply Forall_app. split; [done|].
    constructor; [|done]. by repeat right.
Qed.

Lemma shapes_after st s :
  Forall step_shape (execution_steps st) →
  (∀ agent, current_agent st = Some agent → agent ∈ agent_labels) →
  Forall step_shape (execution_steps (state_after st s))
  ∧ (∀ agent, current_agent (state_after st s) = Some agent →
              agent ∈ agent_labels).
Proof.
  revert st. induction s as [| e rest | c rest IH] using stream_ind;
    intros st Hsteps Hagent; [done | done |].
  rewrite state_after_yields.
  destruct (process_chunk_shapes st c Hsteps Hagent) as [H1 H2]. by apply IH.
Qed.

(** X6: at every point of a run every step is one of four shapes: the
    orchestrator-started step, a delegation to a labelled agent, a completion
    by a labelled agent, or the orchestration-completed step, where the label
    is one of the five of the table or the generic one; and the remembered
    agent, when there is one, is such a label too.  So no step is ever titled
    with an empty or missing agent name. *)
Theorem steps_keep_their_shapes response_stream :
  Forall step_shape (execution_steps (state_after initial_state response_stream))
  ∧ (∀ agent,
       current_agent (state_after initial_state response_stream) = Some agent →
       agent ∈ agent_labels).
Proof. by apply shapes_after. Qed.

(** ** What is on the screen *)

Lemma process_chunk_rendering st c :
  match last (renderings (process_chunk st c).2) with
  | Some widgets =>
      widgets = imap (λ i s, render_step (S i) s)
                     (execution_steps (process_chunk st c).1)
  | None => execution_steps (process_chunk st c).1 = execution_steps st
  end.
Proof. by chunk_kinds st c. Qed.

Lemma rendering_after st s :
  match last (renderings (calls_of st s)) with
  | Some widgets =>
      widgets = imap (λ i x, render_step (S i) x) (execution_steps (state_after st s))
  | None => execution_steps (state_after st s) = execution_steps st
  end.
Proof.
  revert st. induction s as [| e rest | c rest IH] using stream_ind;
    intros st; [done | done |].
  rewrite state_after_yields, calls_of_yields. unfold renderings in *.
  rewrite omap_app. specialize (IH (process_chunk st c).1).
  pose proof (process_chunk_rendering st c) as Hc. unfold renderings in Hc.
  destruct (omap _ (calls_of (process_chunk st c).1 rest)) as [|w ws] eqn:Hrest
    using rev_ind.
  - rewrite app_nil_r. simpl in IH. rewrite IH.
    by destruct (last _).
  - rewrite app_assoc, last_snoc. by rewrite last_snoc in IH.
Qed.

(** X7: the screen is never stale.  Although an iteration that ends in
    [continue] skips the rendering, the last rendering made so far always
    shows the whole step list as it then is, one expander for each step; and
    as long as nothing has been rendered the step list is the one the run
    started with. *)
Theorem last_rendering_shows_all_steps st response_stream :
  match last (renderings (calls_of st response_stream)) with
  | Some widgets =>
      widgets = imap (λ i s, render_step (S i) s)
                     (execution_steps (state_after st response_stream))
      ∧ length widgets = length (execution_steps (state_after st response_stream))
  | None => execution_steps (state_after st response_stream) = execution_steps st
  end.
Proof.
  pose proof (rendering_after st response_stream) as H.
  destruct (last _) as [widgets|]; [|done].
  split; [done|]. by rewrite H, length_imap.
Qed.

(** ** The run id *)

Lemma process_chunk_run_id st c :
  run_id (process_chunk st c).1 = default (run_id st) (chunk_run_id c).
Proof.
  chunk_kinds st c; simpl; try done.
  by match goal with v : Py.value |- _ => destruct v end.
Qed.

Lemma run_id_after st s :
  run_id (state_after st s)
  = default (run_id st) (last (omap chunk_run_id (delivered s))).
Proof.
  revert st. induction s as [| e rest | c rest IH] using stream_ind;
    intros st; [done | done |].
  rewrite state_after_yields, IH, process_chunk_run_id. cbn [delivered].
  change (omap chunk_run_id (c :: delivered rest))
    with (match chunk_run_id c with
          | Some id => id :: omap chunk_run_id (delivered rest)
          | None => omap chunk_run_id (delivered rest)
          end).
  destruct (chunk_run_id c) as [id|]; [|done].
  destruct (omap chunk_run_id (delivered rest)) as [|id' ids _] using rev_ind;
    [done|].
  by rewrite app_comm_cons, !last_snoc.
Qed.

(** X8: the run id kept for the report is the [run_id] attribute of the last
    [RunResponse] received, also when that attribute is [None]; chunks of
    other classes do not touch it, and without any [RunResponse] it stays
    [None]. *)
Theorem run_id_is_that_of_the_last_response response_stream :
  run_id (state_after initial_state response_stream)
  = default None (last (omap chunk_run_id (delivered response_stream))).
Proof. apply run_id_after. Qed.

(** ** The end of a run *)

Lemma calls_of_keep_status st s :
  List.filter is_status_container_empty (calls_of st s) = [].
Proof.
  revert st. induction s as [| e rest | c rest IH] using stream_ind;
    intros st; [done | done |].
  rewrite calls_of_yields, List.filter_app, IH, app_nil_r.
  chunk_kinds st c; try done.
Qed.

Lemma final_report_keeps_status st :
  List.filter is_status_container_empty (final_report st) = []
  ∧ agent_runs (final_report st) = [].
Proof. unfold final_report. by destruct (Py.str_truthy (full_content st)). Qed.

Lemma agent_runs_app calls1 calls2 :
  agent_runs (calls1 ++ calls2) = agent_runs calls1 ++ agent_runs calls2.
Proof. apply omap_app. Qed.

Lemma agent_runs_cons prompt calls :
  agent_runs (Sister_run prompt :: calls) = prompt :: agent_runs calls.
Proof. done. Qed.


(** X10: whatever the stream does, one pass through the [try] statement runs
    the agent exactly once, with the prompt.  When the stream ends, or raises
    an instance of [Exception], [status_container.empty()] is called exactly
    once, after the calls of the loop, and the report or the error with the
    exception follows.  When the stream raises any other exception, the call
    is not made and nothing follows the calls of the loop. *)
Theorem one_run_one_cleanup prompt response_stream :
  let calls := try_block prompt response_stream in
  agent_runs calls = [ prompt ]
  ∧ calls
    = Sister_run prompt :: calls_of initial_state response_stream
      ++ match raised response_stream with
         | None =>
             status_container_empty
             :: final_report (state_after initial_state response_stream)
         | Some e =>
             if is_Exception e
             then [ status_container_empty;
                    error ("❌ Error: " +:+ message e);
                    exception e ]
             else []
         end
  ∧ length (List.filter is_status_container_empty calls)
    = match raised response_stream with
      | None => 1
      | Some e => if is_Exception e then 1 else 0
      end.
Proof.
  intros calls. subst calls. unfold try_block. rewrite run_loop_projections.
  set (st := state_after initial_state response_stream).
  set (loop_calls := calls_of initial_state response_stream).
  assert (agent_runs loop_calls = []) as Hruns by apply calls_of_no_run.
  assert (List.filter is_status_container_empty loop_calls = []) as Hstatus
    by apply calls_of_keep_status.
  destruct (final_report_keeps_status st) as [Hf1 Hf2].
  assert (∀ tail,
            agent_runs (Sister_run prompt :: loop_calls ++ tail)
            = prompt :: agent_runs tail) as Hcount1.
  { intros tail.
    by rewrite app_comm_cons, agent_runs_app, agent_runs_cons, Hruns. }
  assert (∀ tail,
            List.filter is_status_container_empty
              (Sister_run prompt :: loop_calls ++ tail)
            = List.filter is_status_container_empty tail) as Hcount2.
  { intros tail. rewrite app_comm_cons, List.filter_app.
    change (List.filter is_status_container_empty loop_calls
            ++ List.filter is_status_container_empty tail
            = List.filter is_status_container_empty tail). by rewrite Hstatus. }
  destruct (raised response_stream) as [e|].
  - destruct (is_Exception e).
    + by rewrite Hcount1, Hcount2.
    + pose proof (Hcount1 []) as Hnone1. pose proof (Hcount2 []) as Hnone2.
      rewrite app_nil_r in Hnone1, Hnone2. by rewrite app_nil_r, Hnone1, Hnone2.
  - rewrite Hcount1, Hcount2.
    change ([status_container_empty] ++ final_report st)
      with (status_container_empty :: final_report st).
    change (agent_runs (status_container_empty :: final_report st))
      with (agent_runs (final_report st)).
    change (List.filter is_status_container_empty
              (status_container_empty :: final_report st))
      with (status_container_empty
            :: List.filter is_status_container_empty (final_report st)).
    by rewrite Hf1, Hf2.
Qed.

(** ** The progress bar *)

Lemma partial_min n cap :
  ((1 # 10) <= cap)%Q → (cap <= (95 # 100))%Q →
  partial (Qmin (tenth (n + 1)) cap).
Proof.
  intros Hlow Hhigh. split.
  - apply Q.min_glb; [|done]. unfold tenth, Qle. simpl. lia.
  - eapply Qle_trans; [apply Q.le_min_r | done].
Qed.

Lemma partial_not_full v : partial v → Qeq_bool v 1 = false.
Proof.
  intros [_ Hhigh]. destruct (Qeq_bool v 1) eqn:Heq; [|done].
  apply Qeq_bool_eq in Heq. rewrite Heq in Hhigh. by compute in Hhigh.
Qed.

Lemma process_chunk_full st c :
  (is_run_completed c = true ∧ progress_values (process_chunk st c).2 = [ 1%Q ])
  ∨ (is_run_completed c = false
     ∧ Forall partial (progress_values (process_chunk st c).2)).
Proof.
  chunk_kinds st c; simpl;
    first [ by left
          | right; split; [done|]; repeat constructor;
            first [ by apply partial_min | by compute ] ].
Qed.

Lemma progress_after st s :
  Forall (λ v, v = 1%Q ∨ partial v) (progress_values (calls_of st s))
  ∧ length (List.filter (λ v, Qeq_bool v 1) (progress_values (calls_of st s)))
    = length (List.filter is_run_completed (delivered s)).
Proof.
  revert st. induction s as [| e rest | c rest IH] using stream_ind;
    intros st; [by split | by split |].
  rewrite calls_of_yields. unfold progress_values in *. rewrite omap_app.
  destruct (IH (process_chunk st c).1) as [IH1 IH2].
  cbn [delivered List.filter]. rewrite List.filter_app, length_app, IH2.
  destruct (process_chunk_full st c) as [[-> Hc] | [-> Hc]];
    unfold progress_values in Hc.
  - rewrite Hc. split; [|done]. constructor; [by left | done].
  - split.
    + apply Forall_app. split; [|done].
      eapply Forall_impl; [exact Hc | by right].
    + replace (List.filter _ (omap _ (process_chunk st c).2)) with (@nil Q); [done|].
      symmetry. induction Hc as [|v vs Hv _ IHvs]; [done|].
      simpl. by rewrite partial_not_full.
Qed.

(** X11: the progress bar is set to 1.0 exactly once for each
    [run_completed] received; every other value it is set to lies between 0.1
    and 0.95. *)
Theorem progress_is_full_only_at_completion st response_stream :
  Forall (λ v, v = 1%Q ∨ partial v) (progress_values (calls_of st response_stream))
  ∧ length (List.filter (λ v, Qeq_bool v 1)
                        (progress_values (calls_of st response_stream)))
    = length (List.filter is_run_completed (delivered response_stream)).
Proof. apply progress_after. Qed.

(** ** Streams in parts *)

(** X12: the loop on a stream that first yields [events] and then goes on as
    [rest] does on [rest], from the state the events leave, what it does on
    [rest] alone; the calls are those of the two parts in order.  Nothing ends
    the loop but the end of the stream or an exception: a [run_completed]
    among the events does not. *)
Theorem loop_goes_on_after_events st events rest :
  run_loop st ((yields <$> events) ++ rest)
  = (state_after (state_after st (yields <$> events)) rest,
     calls_of st (yields <$> events)
     ++ calls_of (state_after st (yields <$> events)) rest,
     raised rest).
Proof.
  by rewrite run_loop_projections, state_after_yields_app, calls_of_yields_app,
    raised_yields.
Qed.

(** X13: objects in the stream that are no [RunResponse] are skipped without
    any trace: the loop gives the same state and makes the same calls as on
    the stream without them. *)
Theorem other_objects_leave_no_trace st events :
  run_loop st (yields <$> events)
  = run_loop st (yields <$> List.filter is_response events).
Proof.
  revert st. induction events as [|c events IH]; intros st; [done|].
  destruct c as [r|]; cbn [List.filter is_response].
  - rewrite !fmap_cons. cbn [run_loop].
    destruct (process_chunk st (is_RunResponse r)) as [st1 calls1].
    by rewrite IH.
  - rewrite fmap_cons. cbn [run_loop process_chunk]. rewrite IH.
    by destruct (run_loop st _) as [[st2 calls2] r2].
Qed.

(** ** The counter *)

Lemma process_chunk_count st c :
  step_count (process_chunk st c).1
  = step_count st + (if passes_filter c then 1 else 0).
Proof.
  chunk_kinds st c; simpl; try lia.
  match goal with v : Py.value |- _ => destruct v end; simpl; lia.
Qed.

Lemma count_after st s :
  step_count (state_after st s)
  = step_count st + length (List.filter passes_filter (delivered s)).
Proof.
  revert st. induction s as [| e rest | c rest IH] using stream_ind; intros st.
  - rewrite state_after_nil. simpl. lia.
  - rewrite state_after_raises. simpl. lia.
  - rewrite state_after_yields, IH, process_chunk_count. cbn [delivered List.filter].
    destruct (passes_filter c); simpl; lia.
Qed.

(** X14: after any stream, with or without [run_completed] events and
    exceptions, the step counter is the number of events received that pass
    the filters: [run_started] events, delegations and completions with
    content; the step list is longer by the number of [run_completed] events
    received. *)
Theorem counter_counts_filtered_events response_stream :
  let st := state_after initial_state response_stream in
  step_count st = length (List.filter passes_filter (delivered response_stream))
  ∧ length (execution_steps st)
    = length (List.filter passes_filter (delivered response_stream))
      + length (List.filter is_run_completed (delivered response_stream)).
Proof.
  intros st. subst st.
  pose proof (count_after initial_state response_stream) as Hcount.
  pose proof (counter_after initial_state response_stream) as Hlen.
  simpl in *. lia.
Qed.

(** ** The prompt *)

Lemma str_in_middle pre sub post : Py.str_in sub (pre +:+ sub +:+ post) = true.
Proof. apply str_in_spec. by exists pre, post. Qed.

(** X15: the prompt handed to the agent starts with "reported by " and holds
    the sender, the subject and the body unchanged, so it is never empty. *)
Theorem prompt_holds_the_fields email_from email_subject email_body :
  let prompt := user_input email_from email_subject email_body in
  Py.startswith prompt "reported by " = true
  ∧ Py.str_in email_from prompt = true
  ∧ Py.str_in email_subject prompt = true
  ∧ Py.str_in email_body prompt = true
  ∧ Py.str_truthy prompt = true.
Proof.
  intros prompt. subst prompt. unfold user_input. repeat split.
  - apply startswith_spec. by eexists.
  - apply str_in_middle.
  - rewrite <- (append_assoc email_from), <- (append_assoc "reported by ").
    apply str_in_middle.
  - apply str_in_spec.
    exists ("reported by " +:+ email_from +:+ " Subject: " +:+ email_subject
            +:+ newline +:+ newline), EmptyString.
    by rewrite append_empty_r, !append_assoc.
Qed.

(** ** Delegations outside the table *)

(** X16: a delegation to a function that has the delegation prefix but is
    not one of the five of the table is shown all the same, as a delegation to
    the generic agent, and the generic label is what is remembered for the
    completion that follows. *)
Theorem unknown_target_is_shown_as_agent st earlier tool_info payload rid fn :
  tool_info !! "function_name" = Some fn →
  Py.startswith fn delegation_prefix = true →
  fn ∉ delegation_targets →
  (process_chunk st (started earlier tool_info payload rid)).1
  = {| execution_steps := execution_steps st ++ [ delegation_step "🤖 Agent" ];
       step_count := step_count st + 1;
       current_agent := Some "🤖 Agent";
       full_content := full_content st;
       run_id := rid |}.
Proof.
  intros Htool Hprefix Hfn.
  destruct (started_passes earlier tool_info payload rid fn Htool Hprefix)
    as [Hpass Hname].
  unfold started in *. rewrite process_tool_call_started by done.
  rewrite Hpass. simpl. by rewrite Hname, unknown_function_name.
Qed.

Lemma unknown_target_is_shown_as_agent_witness :
  let tool_info : gmap string string :=
    {[ "function_name" := "transfer_task_to_billing" ]} in
  tool_info !! "function_name" = Some "transfer_task_to_billing"
  ∧ Py.startswith "transfer_task_to_billing" delegation_prefix = true
  ∧ ("transfer_task_to_billing" ∉ delegation_targets)
  ∧ (process_chunk initial_state (started [] tool_info Py.None_ (Some "r1"))).1
    = {| execution_steps := [ delegation_step "🤖 Agent" ];
         step_count := 1;
         current_agent := Some "🤖 Agent";
         full_content := EmptyString;
         run_id := Some "r1" |}.
Proof.
  intros tool_info.
  assert ("transfer_task_to_billing" ∉ delegation_targets) as Hout
    by (apply (bool_decide_unpack _); reflexivity).
  do 2 (split; [reflexivity|]). split; [exact Hout|].
  exact (unknown_target_is_shown_as_agent initial_state [] tool_info Py.None_
           (Some "r1") "transfer_task_to_billing" eq_refl eq_refl Hout).
Defined.
